(** * adoctl: the Wayland clipboard-ownership client

    A shallow embedding of [pkg/clipboard/internal/wayland/protocol.go]
    (wire codec, socket transport, bootstrap and serve loops of [Serve])
    and of [WriteMultiFormat] from the [clipboard] package, with the
    properties of the design document that concern them.

    Conventions.
    - Go's [uint32]/[uint16] are [Z] reduced modulo [2^32]/[2^16] at every
      conversion; Go's [int] is 64 bits wide and only ever holds slice
      lengths here, so it is a plain [Z].
    - [[]byte] is [list byte]; a Go [string] is a [string]; the two
      conversions are [list_byte_of_string] and [string_of_list_byte].
    - A file descriptor is a [Z]; [-1] stands for "no descriptor". *)

From Stdlib Require Import ZArith List Lia Bool.
From Stdlib Require Import Strings.String Strings.Byte.
From stdpp Require Import base option list gmap strings.

Local Open Scope Z_scope.

Module Wayland.

(** ** Bytes and slices *)

Definition len {A : Type} (l : list A) : Z := Z.of_nat (length l).

(** Go's [byte(v)]: the low eight bits. *)
Definition byte_of_Z (v : Z) : byte :=
  default x00 (Byte.of_N (Z.to_N (v mod 256))).

Definition Z_of_byte (b : byte) : Z := Z.of_N (Byte.to_N b).

Definition uint16 (v : Z) : Z := v mod 2 ^ 16.
Definition uint32 (v : Z) : Z := v mod 2 ^ 32.

(** [make([]byte, n)]. *)
Definition make (n : Z) : list byte := replicate (Z.to_nat n) x00.

(** [a[i:]], [a[:j]] and [a[i:j]]; every use in the source is guarded by a
    length test, so the run-time bounds check never fires. *)
Definition slice_from (i : Z) (a : list byte) : list byte := drop (Z.to_nat i) a.
Definition slice_to (j : Z) (a : list byte) : list byte := take (Z.to_nat j) a.
Definition slice (i j : Z) (a : list byte) : list byte :=
  take (Z.to_nat (j - i)) (drop (Z.to_nat i) a).

(** [copy(dst[off:], src)]: overwrites at most [len dst - off] bytes. *)
Definition copy_at (dst : list byte) (off : Z) (src : list byte) : list byte :=
  let o := Z.to_nat off in
  let n := Nat.min (length dst - o) (length src) in
  take o dst ++ take n src ++ drop (o + n) dst.

(** ** [encoding/binary], little endian *)

(** The four bytes [le.PutUint32] stores for [v]. *)
Definition le_bytes32 (v : Z) : list byte :=
  [byte_of_Z v; byte_of_Z (v ≫ 8); byte_of_Z (v ≫ 16); byte_of_Z (v ≫ 24)].

(** [le.PutUint32(buf[off:], v)] on a buffer with at least [off + 4] bytes. *)
Definition PutUint32 (buf : list byte) (off : Z) (v : Z) : list byte :=
  copy_at buf off (le_bytes32 v).

(** [le.Uint32(b)]; Go panics on fewer than four bytes, which no caller
    in this package allows. *)
Definition Uint32 (b : list byte) : Z :=
  match b with
  | b0 :: b1 :: b2 :: b3 :: _ =>
      Z.lor (Z_of_byte b0)
        (Z.lor (Z_of_byte b1 ≪ 8)
           (Z.lor (Z_of_byte b2 ≪ 16) (Z_of_byte b3 ≪ 24)))
  | _ => 0
  end.

(** ** Errors *)

Inductive error : Type :=
| Errno (code : Z)                              (* a syscall.Errno *)
| Errorf (msg : string)                         (* fmt.Errorf without verbs *)
| ErrConnect (sockPath : string) (cause : error). (* "wayland: connect %s: %w" *)

(** ** The string codec *)

Definition encodeUint32 (v : Z) : list byte :=
  let b := make 4 in
  PutUint32 b 0 v.

Definition encodeString (s : string) : list byte :=
  let sBytes := list_byte_of_string s ++ [x00] in
  let length' := len sBytes in
  let padded := Z.ldiff (length' + 3) 3 in
  let buf := make (4 + padded) in
  let buf := PutUint32 buf 0 (uint32 length') in
  copy_at buf 4 sBytes.

Definition concat (slices : list (list byte)) : list byte :=
  fold_left (λ result s, result ++ s) slices [].

Definition decodeString (data : list byte) : string * list byte * option error :=
  if len data <? 4 then
    (EmptyString, data, Some (Errorf "wayland: short string length field"))
  else
    let length' := Uint32 (slice_to 4 data) in
    let data := slice_from 4 data in
    if length' =? 0 then (EmptyString, data, None)
    else
      let padded := Z.ldiff (length' + 3) 3 in
      if len data <? padded then
        (EmptyString, data, Some (Errorf "wayland: short string data"))
      else
        (string_of_list_byte (slice_to (length' - 1) data),
         slice_from padded data, None).

(** ** The process state and its system calls

    [Serve] talks to the outside through [syscall.Recvmsg], [syscall.Write]
    and [syscall.Close]. The compositor's side is a script: the results of
    the successive [Recvmsg] calls on the socket ([incoming]) and of the
    successive [Write] calls on the socket ([wr_results], success once the
    list is used up). The calls that change the outside are logged in
    [trace], oldest first. *)

Inductive syscall : Type :=
| SysWrite (fd : Z) (data : list byte)
| SysClose (fd : Z).

(** One [Recvmsg] result: the [n] bytes stored in the 4096-byte buffer and
    the descriptors of the [SCM_RIGHTS] control messages that parse, in
    order; or the error. *)
Inductive recv : Type :=
| RecvData (data : list byte) (rights : list Z)
| RecvErr (e : error).

Record State : Type := mkState {
  c_fd : Z;                           (* waylandConn.fd *)
  inBuf : list byte;                  (* waylandConn.inBuf *)
  pendingFds : list Z;                (* waylandConn.pendingFds *)
  incoming : list recv;
  wr_results : list (option error);
  trace : list syscall
}.

Inductive res (A : Type) : Type :=
| Val (a : A)        (* the call returned; for an [error] result, [nil] *)
| Fail (e : error)   (* the call returned a non-nil [error] *)
| Block              (* Recvmsg never returns: the script is used up *)
| Panic              (* run-time panic: slice bounds out of range *)
| Timeout.           (* the fuel of a loop of the model ran out *)
Arguments Val {A} a.
Arguments Fail {A} e.
Arguments Block {A}.
Arguments Panic {A}.
Arguments Timeout {A}.

Definition M (A : Type) : Type := State → res A * State.

#[global] Instance M_ret : MRet M := λ A a st, (Val a, st).

(** Sequencing with Go's [if err != nil { return err }] built in. *)
#[global] Instance M_bind : MBind M := λ A B f m st,
  match m st with
  | (Val a, st') => f a st'
  | (Fail e, st') => (Fail e, st')
  | (Block, st') => (Block, st')
  | (Panic, st') => (Panic, st')
  | (Timeout, st') => (Timeout, st')
  end.

(** [x, err := m] without the early return: the error becomes a value. *)
Definition attempt {A : Type} (m : M A) : M (A + error) := λ st,
  match m st with
  | (Val a, st') => (Val (inl a), st')
  | (Fail e, st') => (Val (inr e), st')
  | (Block, st') => (Block, st')
  | (Panic, st') => (Panic, st')
  | (Timeout, st') => (Timeout, st')
  end.

Definition log (ev : syscall) (st : State) : State :=
  mkState (c_fd st) (inBuf st) (pendingFds st) (incoming st) (wr_results st)
    (trace st ++ [ev]).

(** [syscall.Close(fd)], result ignored. *)
Definition sys_close (fd : Z) : M unit := λ st, (Val (), log (SysClose fd) st).

(** [syscall.Write(fd, data)] on a received descriptor, result ignored. *)
Definition sys_write (fd : Z) (data : list byte) : M unit :=
  λ st, (Val (), log (SysWrite fd data) st).

(** [_, err := syscall.Write(c.fd, buf); return err]. *)
Definition sock_write (buf : list byte) : M unit := λ st,
  let st' := log (SysWrite (c_fd st) buf) st in
  match wr_results st with
  | [] => (Val (), st')
  | r :: rs =>
      (match r with None => Val () | Some e => Fail e end,
       mkState (c_fd st') (inBuf st') (pendingFds st') (incoming st') rs (trace st'))
  end.

(** A loop [for { ... }] whose body either goes round again with new
    local variables ([inl]) or leaves with a result ([inr]). *)
Fixpoint loop {S A : Type} (fuel : nat) (body : S → M (S + A)) (s : S) : M A :=
  match fuel with
  | O => λ st, (Timeout, st)
  | Datatypes.S n =>
      r ← body s;
      match r with
      | inl s' => loop n body s'
      | inr a => mret a
      end
  end.

(** ** Fixed object IDs *)

Definition idDisplay : Z := 1.
Definition idRegistry : Z := 2.
Definition idCallback1 : Z := 3.
Definition idSeat : Z := 4.
Definition idDCManager : Z := 5.
Definition idDCSource : Z := 6.
Definition idDCDevice : Z := 7.
Definition idCallback2 : Z := 8.

(** ** Transport *)

Definition close : M unit := λ st, sys_close (c_fd st) st.

Definition sendMsg (objectID : Z) (opcode : Z) (args : list byte) : M unit :=
  let size := uint16 (8 + len args) in
  let buf := make size in
  (* le.PutUint32(buf[0:], _) and le.PutUint32(buf[4:], _) need 8 bytes *)
  if size <? 8 then λ st, (Panic, st)
  else
    let buf := PutUint32 buf 0 objectID in
    let buf := PutUint32 buf 4 (Z.lor (uint32 opcode) (uint32 (uint32 size ≪ 16))) in
    let buf := copy_at buf 8 args in
    sock_write buf.

Record message : Type := mkMessage {
  objectID : Z;
  opcode : Z;
  payload : list byte;
  msg_fd : Z
}.

(** The test at the head of [readMsg]'s loop: a complete message at the
    front of the buffer, split off from what follows it. *)
Definition buffered (buf : list byte) : option (Z * Z * list byte * list byte) :=
  if 8 <=? len buf then
    let sizeOpcode := Uint32 (slice 4 8 buf) in
    let size := sizeOpcode ≫ 16 in
    if (8 <=? size) && (size <=? len buf) then
      Some (Uint32 (slice 0 4 buf), uint16 (Z.land sizeOpcode 65535),
            copy_at (make (size - 8)) 0 (slice 8 size buf),
            slice_from size buf)
    else None
  else None.

(** [readMsg] on buffer [buf], descriptor queue [fds] and the remaining
    receive script [q]. *)
Fixpoint readMsg_loop (q : list recv) (buf : list byte) (fds : list Z)
  : res message * (list byte * list Z * list recv) :=
  match buffered buf with
  | Some (oid, opc, pl, rest) =>
      match fds with
      | fd :: fds' => (Val (mkMessage oid opc pl fd), (rest, fds', q))
      | [] => (Val (mkMessage oid opc pl (-1)), (rest, fds, q))
      end
  | None =>
      match q with
      | [] => (Block, (buf, fds, q))
      | RecvErr recvErr :: q' => (Fail recvErr, (buf, fds, q'))
      | RecvData data rights :: q' =>
          if len data =? 0 then
            (Fail (Errorf "wayland: connection closed"), (buf, fds, q'))
          else readMsg_loop q' (buf ++ data) (fds ++ rights)
      end
  end.

Definition readMsg : M message := λ st,
  let '(r, (buf, fds, q)) := readMsg_loop (incoming st) (inBuf st) (pendingFds st) in
  (r, mkState (c_fd st) buf fds q (wr_results st) (trace st)).

(** ** [Serve] *)

(** What the process finds around it: the two environment variables (the
    empty string when unset), [filepath.Join], the results of [syscall.Socket] and
    [syscall.Connect], the compositor's script, and the order in which
    [range] enumerates the keys of a map (unspecified in Go). *)
Record Env : Type := mkEnv {
  XDG_RUNTIME_DIR : string;
  WAYLAND_DISPLAY : string;
  filepath_Join : string → string → string;
  socket_result : Z + error;
  connect_result : string → option error;
  peer_script : list recv;
  write_script : list (option error);
  range_order : gmap string (list byte) → list string
}.

Definition newConn (env : Env) (sockPath : string) : res State * list syscall :=
  match socket_result env with
  | inr err => (Fail err, [])
  | inl fd =>
      match connect_result env sockPath with
      | Some err => (Fail err, [SysClose fd])
      | None => (Val (mkState fd [] [] (peer_script env) (write_script env) []), [])
      end
  end.

(** The local variables of the bootstrap loop. *)
Record globals : Type := mkGlobals {
  seatName : Z;
  dcManagerName : Z;
  seatFound : bool;
  dcManagerFound : bool
}.

Definition no_globals : globals := mkGlobals 0 0 false false.

Definition close_if_fd (fd : Z) : M unit :=
  if 0 <=? fd then sys_close fd else mret ().

(** Body of the loop of step 3; [inr] is [goto afterFirstSync]. *)
Definition collectGlobals (g : globals) : M (globals + globals) :=
  m ← readMsg;
  close_if_fd (msg_fd m);;
  if (objectID m =? idRegistry) && (opcode m =? 0) then
    if len (payload m) <? 4 then mret (inl g)
    else
      let name := Uint32 (slice_to 4 (payload m)) in
      let '(iface, _, decErr) := decodeString (slice_from 4 (payload m)) in
      match decErr with
      | Some _ => mret (inl g)
      | None =>
          if String.eqb iface "wl_seat" then
            mret (inl (mkGlobals name (dcManagerName g) true (dcManagerFound g)))
          else if String.eqb iface "zwlr_data_control_manager_v1" then
            mret (inl (mkGlobals (seatName g) name (seatFound g) true))
          else mret (inl g)
      end
  else if (objectID m =? idCallback1) && (opcode m =? 0) then mret (inr g)
  else mret (inl g).

(** Body of the loop of step 10; [inr] is [break]. *)
Definition awaitSecondSync (_ : unit) : M (unit + unit) :=
  m ← readMsg;
  close_if_fd (msg_fd m);;
  if (objectID m =? idCallback2) && (opcode m =? 0) then mret (inr ())
  else mret (inl ()).

(** Body of the event loop of step 11; [inr] is [return nil]. *)
Definition serveRequests (formats : gmap string (list byte)) (_ : unit)
  : M (unit + unit) :=
  r ← attempt readMsg;
  match r with
  | inr _ => mret (inr ())
  | inl m =>
      if negb (objectID m =? idDCSource) then
        close_if_fd (msg_fd m);;
        mret (inl ())
      else if opcode m =? 0 then
        let '(mimeType, _, _) := decodeString (payload m) in
        (if 0 <=? msg_fd m then
           match formats !! mimeType with
           | Some data => sys_write (msg_fd m) data
           | None => mret ()
           end;;
           sys_close (msg_fd m)
         else mret ());;
        mret (inl ())
      else if opcode m =? 1 then mret (inr ())
      else mret (inl ())
  end.

(** [for mimeType := range formats { ... }] over the enumerated keys. *)
Fixpoint offerAll (mimeTypes : list string) : M unit :=
  match mimeTypes with
  | [] => mret ()
  | mimeType :: more =>
      sendMsg idDCSource 0 (encodeString mimeType);;
      offerAll more
  end.

(** [return err] with a non-nil error. *)
Definition return_err {A : Type} (e : error) : M A := λ st, (Fail e, st).

(** Steps 4 and 5, from the label [afterFirstSync]: both globals must
    have been seen; bind them. *)
Definition afterFirstSync (g : globals) : M unit :=
  if negb (seatFound g) then
    return_err (Errorf "wayland: wl_seat not found")
  else if negb (dcManagerFound g) then
    return_err (Errorf "wayland: zwlr_data_control_manager_v1 not found (compositor may not support wlr-data-control)")
  else
    sendMsg idRegistry 0
      (concat [encodeUint32 (seatName g); encodeString "wl_seat";
               encodeUint32 1; encodeUint32 idSeat]);;
    sendMsg idRegistry 0
      (concat [encodeUint32 (dcManagerName g);
               encodeString "zwlr_data_control_manager_v1";
               encodeUint32 2; encodeUint32 idDCManager]).

(** Steps 1 to 5: registry, first sync, the globals, the two binds. *)
Definition bootstrap (fuel : nat) : M unit :=
  sendMsg idDisplay 1 (encodeUint32 idRegistry);;
  sendMsg idDisplay 0 (encodeUint32 idCallback1);;
  g ← loop fuel collectGlobals no_globals;
  afterFirstSync g.

(** Steps 6 to 10: the source and its offers, the device, the selection,
    the second sync. *)
Definition claimSelection (env : Env) (fuel : nat)
    (formats : gmap string (list byte)) : M unit :=
  sendMsg idDCManager 0 (encodeUint32 idDCSource);;
  offerAll (range_order env formats);;
  sendMsg idDCManager 1 (concat [encodeUint32 idDCDevice; encodeUint32 idSeat]);;
  sendMsg idDCDevice 0 (encodeUint32 idDCSource);;
  sendMsg idDisplay 0 (encodeUint32 idCallback2);;
  loop fuel awaitSecondSync ().

(** Step 11: the event loop. *)
Definition eventLoop (fuel : nat) (formats : gmap string (list byte)) : M unit :=
  loop fuel (serveRequests formats) ().

(** Everything up to the event loop. *)
Definition handshake (env : Env) (fuel : nat)
    (formats : gmap string (list byte)) : M unit :=
  bootstrap fuel;;
  claimSelection env fuel formats.

(** The body of [Serve] on an open connection. *)
Definition session (env : Env) (fuel : nat)
    (formats : gmap string (list byte)) : M unit :=
  handshake env fuel formats;;
  eventLoop fuel formats.

(** [defer c.close()]: runs when the function returns or panics, not when
    it never comes back. *)
Definition deferred_close (body : M unit) : M unit := λ st,
  match body st with
  | (Block, st') => (Block, st')
  | (Timeout, st') => (Timeout, st')
  | (r, st') => (r, (close st').2)
  end.

Definition Serve (env : Env) (fuel : nat) (formats : gmap string (list byte))
  : res unit * list syscall :=
  let runtime := XDG_RUNTIME_DIR env in
  let display := WAYLAND_DISPLAY env in
  let display := if String.eqb display EmptyString then "wayland-0"%string else display in
  if String.eqb runtime EmptyString then
    (Fail (Errorf "wayland: XDG_RUNTIME_DIR not set"), [])
  else
    let sockPath := filepath_Join env runtime display in
    match newConn env sockPath with
    | (Val st, _) =>
        let '(r, st') := deferred_close (session env fuel formats) st in
        (r, trace st')
    | (Fail err, tr) => (Fail (ErrConnect sockPath err), tr)
    | (Block, tr) => (Block, tr)
    | (Panic, tr) => (Panic, tr)
    | (Timeout, tr) => (Timeout, tr)
    end.

(** A string without embedded NUL bytes. *)
Definition nul_free (s : string) : bool :=
  forallb (λ b, negb (Byte.eqb b x00)) (list_byte_of_string s).

(** ** Wire frames and test data *)

(** A message as it travels: object ID, then opcode in the low and total
    size in the high half of the second word, then the arguments. *)
Definition frame (oid opc : Z) (args : list byte) : list byte :=
  le_bytes32 oid ++ le_bytes32 (Z.lor opc ((8 + len args) ≪ 16)) ++ args.

(** The fields of a frame fit their widths. *)
Definition wire_ok (oid opc : Z) (args : list byte) : Prop :=
  0 <= oid < 2 ^ 32 ∧ 0 <= opc < 2 ^ 16 ∧ 8 + len args < 2 ^ 16.

(** The next [n] messages [readMsg] hands out, when it hands out that
    many, and the state it leaves. *)
Fixpoint read_n (n : nat) (st : State) : option (list message * State) :=
  match n with
  | O => Some ([], st)
  | Datatypes.S n' =>
      match readMsg st with
      | (Val m, st1) =>
          match read_n n' st1 with
          | Some (ms, st2) => Some (m :: ms, st2)
          | None => None
          end
      | _ => None
      end
  end.

(** The [Close] calls that dispose of the descriptors of [ms]. *)
Definition closes (ms : list message) : list syscall :=
  flat_map (λ m, if 0 <=? msg_fd m then [SysClose (msg_fd m)] else []) ms.

(** [wl_callback.done] of the first and of the second sync. *)
Definition is_done (callback : Z) (m : message) : bool :=
  (objectID m =? callback) && (opcode m =? 0).

(** [zwlr_data_control_source_v1.cancelled] on the data source. *)
Definition is_cancelled (m : message) : bool :=
  (objectID m =? idDCSource) && (opcode m =? 1).

(** A [wl_registry.global] event that announces [iface]: name, interface
    string, version. Gives the name. *)
Definition advertises (iface : string) (m : message) : option Z :=
  if (objectID m =? idRegistry) && (opcode m =? 0) && (4 <=? len (payload m)) then
    match decodeString (slice_from 4 (payload m)) with
    | (i, _, None) =>
        if String.eqb i iface then Some (Uint32 (slice_to 4 (payload m))) else None
    | _ => None
    end
  else None.

(** The name under which [iface] was announced last. *)
Definition last_name (iface : string) (ms : list message) : option Z :=
  last (omap (advertises iface) ms).

(** The system calls with which the event loop answers one message. *)
Definition answer (formats : gmap string (list byte)) (m : message) : list syscall :=
  if negb (objectID m =? idDCSource) then closes [m]
  else if (opcode m =? 0) && (0 <=? msg_fd m) then
    match formats !! (decodeString (payload m)).1.1 with
    | Some data => [SysWrite (msg_fd m) data; SysClose (msg_fd m)]
    | None => [SysClose (msg_fd m)]
    end
  else [].

(** The state in which a run of [Serve] enters the event loop, if it
    gets there. *)
Definition serving (env : Env) (fuel : nat) (formats : gmap string (list byte))
  : option State :=
  if String.eqb (XDG_RUNTIME_DIR env) EmptyString then None
  else
    let display :=
      if String.eqb (WAYLAND_DISPLAY env) EmptyString then "wayland-0"%string
      else WAYLAND_DISPLAY env in
    match newConn env (filepath_Join env (XDG_RUNTIME_DIR env) display) with
    | (Val st0, _) =>
        match handshake env fuel formats st0 with
        | (Val _, st) => Some st
        | _ => None
        end
    | _ => None
    end.

(** Events appended to the trace of a state. *)
Definition logged (st : State) (evs : list syscall) : State :=
  mkState (c_fd st) (inBuf st) (pendingFds st) (incoming st) (wr_results st)
    (trace st ++ evs).

(** The connection fields of [st] with other write results and trace. *)
Definition with_io (st : State) (wr : list (option error)) (tr : list syscall)
  : State :=
  mkState (c_fd st) (inBuf st) (pendingFds st) (incoming st) wr tr.

(** The next [n] writes on the socket succeed. *)
Definition next_writes_ok (n : nat) (st : State) : bool :=
  forallb (λ r, match r with None => true | Some _ => false end)
    (take n (wr_results st)).

(** What one message that is not [done] does to the variables of the
    bootstrap loop. *)
Definition note_global (g : globals) (m : message) : globals :=
  match advertises "wl_seat" m with
  | Some name => mkGlobals name (dcManagerName g) true (dcManagerFound g)
  | None =>
      match advertises "zwlr_data_control_manager_v1" m with
      | Some name => mkGlobals (seatName g) name (seatFound g) true
      | None => g
      end
  end.

(** The name a system call binds, when the call writes a
    [wl_registry.bind] request: object [idRegistry], opcode 0, the name
    first among the arguments. *)
Definition bind_name (ev : syscall) : option Z :=
  match ev with
  | SysWrite _ buf =>
      match buffered buf with
      | Some (oid, opc, args, _) =>
          if (oid =? idRegistry) && (opc =? 0) then Some (Uint32 (slice_to 4 args))
          else None
      | None => None
      end
  | SysClose _ => None
  end.

(** The open connection of a run of [Serve], if it gets one. *)
Definition connected (env : Env) : option State :=
  if String.eqb (XDG_RUNTIME_DIR env) EmptyString then None
  else
    let display :=
      if String.eqb (WAYLAND_DISPLAY env) EmptyString then "wayland-0"%string
      else WAYLAND_DISPLAY env in
    match newConn env (filepath_Join env (XDG_RUNTIME_DIR env) display) with
    | (Val st0, _) => Some st0
    | _ => None
    end.

(** The error of step 3 for the first required interface that was never
    announced among [ms]. *)
Definition missing_global (ms : list message) : error :=
  match last_name "wl_seat" ms with
  | None => Errorf "wayland: wl_seat not found"
  | Some _ =>
      Errorf "wayland: zwlr_data_control_manager_v1 not found (compositor may not support wlr-data-control)"
  end.

(** The requests of the bootstrap, framed. *)
Definition get_registry_request : list byte :=
  frame idDisplay 1 (encodeUint32 idRegistry).
Definition sync_request (callback : Z) : list byte :=
  frame idDisplay 0 (encodeUint32 callback).
Definition bind_request (name : Z) (iface : string) (version newID : Z) : list byte :=
  frame idRegistry 0
    (encodeUint32 name ++ encodeString iface ++ encodeUint32 version
       ++ encodeUint32 newID).

(** The bytes a state can still read: buffered, or to come. *)
Definition script_bytes (q : list recv) : nat :=
  fold_right (λ r n, match r with RecvData d _ => length d + n | RecvErr _ => n end)%nat
    0%nat q.
Definition pending (st : State) : nat :=
  (length (inBuf st) + script_bytes (incoming st))%nat.

(** A computation that, started with fewer than [fuel] bytes to read,
    leaves no more of them and does not run out of fuel. *)
Definition within {A : Type} (fuel : nat) (m : M A) : Prop :=
  ∀ st, (pending st < fuel)%nat →
    (pending (m st).2 ≤ pending st)%nat ∧ (m st).1 ≠ Timeout.

(** A computation that leaves the connection's descriptor alone. *)
Definition keeps_fd {A : Type} (m : M A) : Prop :=
  ∀ st, c_fd (m st).2 = c_fd st.

(** *** Scripted peers *)

(** The events the compositor sends, framed. *)
Definition global_event (name : Z) (iface : string) (version : Z) : list byte :=
  frame idRegistry 0 (encodeUint32 name ++ encodeString iface ++ encodeUint32 version).
Definition done_event (callback : Z) : list byte :=
  frame callback 0 (encodeUint32 0).
Definition send_event (mimeType : string) : list byte :=
  frame idDCSource 0 (encodeString mimeType).
Definition cancelled_event : list byte := frame idDCSource 1 [].

(** The same events as [readMsg] hands them out, without descriptor. *)
Definition global_message (name : Z) (iface : string) (version : Z) : message :=
  mkMessage idRegistry 0
    (encodeUint32 name ++ encodeString iface ++ encodeUint32 version) (-1).
Definition done_message (callback : Z) : message :=
  mkMessage callback 0 (encodeUint32 0) (-1).

(** A compositor without the data-control extension. *)
Definition plain_script : list recv :=
  [RecvData (global_event 1 "wl_compositor" 5) [];
   RecvData (global_event 7 "wl_seat" 8) [];
   RecvData (done_event idCallback1) []].

(** The peer of the bootstrap test, then one with an unrelated global and
    a second announcement of the seat. *)
Definition bootstrap_script : list recv :=
  [RecvData (global_event 7 "wl_seat" 8) [];
   RecvData (global_event 9 "zwlr_data_control_manager_v1" 2) [];
   RecvData (done_event idCallback1) []].
Definition busy_script : list recv :=
  [RecvData (global_event 5 "wl_seat" 8) [];
   RecvData (global_event 1 "wl_compositor" 5) [];
   RecvData (global_event 9 "zwlr_data_control_manager_v1" 2) [];
   RecvData (global_event 7 "wl_seat" 8) [];
   RecvData (done_event idCallback1) []].

(** The offer table [{"text/plain": "hello"}]. *)
Definition offer_table : gmap string (list byte) :=
  {[ "text/plain"%string := list_byte_of_string "hello" ]}.

(** A process whose socket is descriptor 3, whose writes succeed and whose
    compositor follows [script]. *)
Definition peer_env (script : list recv) : Env :=
  mkEnv "/run/user/1000" "wayland-1" (λ dir name, (dir ++ "/" ++ name)%string)
    (inl 3) (λ _, None) script [] (λ m, (map_to_list m).*1).

(** A connection on descriptor 3 with nothing buffered, in front of [script]. *)
Definition fresh_conn (script : list recv) : State := mkState 3 [] [] script [] [].

(** Both globals, both syncs: the session enters the event loop. *)
Definition handshake_script : list recv :=
  [RecvData (global_event 7 "wl_seat" 8) [];
   RecvData (global_event 9 "zwlr_data_control_manager_v1" 2) [];
   RecvData (done_event idCallback1) [];
   RecvData (done_event idCallback2) []].

(** The state in which the scripted run enters the event loop, with
    [events] still to come. *)
Definition serving_state (events : list recv) : State :=
  default (fresh_conn [])
    (serving (peer_env (handshake_script ++ events)) 20 offer_table).

(** An event on the data source that is neither [send] nor [cancelled],
    with descriptor 11 attached. *)
Definition other_event : recv := RecvData (frame idDCSource 2 []) [11].

(** The calls of a trace that concern descriptor [fd]. *)
Definition calls_on (fd : Z) (tr : list syscall) : list syscall :=
  List.filter (λ ev, match ev with SysWrite f _ | SysClose f => f =? fd end) tr.

(** A string of [2^32 - 1] bytes, all ['a']: with its terminator it is
    [2^32] bytes long. *)
Definition long_string : string :=
  string_of_list_byte (replicate (Z.to_nat (2 ^ 32 - 1)) "a"%byte).

(** ** The byte stream behind the transport *)

(** The bytes and the descriptors that the receives of a script deliver. *)
Fixpoint data_of (q : list recv) : list byte :=
  match q with
  | [] => []
  | RecvData d _ :: q' => d ++ data_of q'
  | RecvErr _ :: q' => data_of q'
  end.
Fixpoint rights_of (q : list recv) : list Z :=
  match q with
  | [] => []
  | RecvData _ rights :: q' => rights ++ rights_of q'
  | RecvErr _ :: q' => rights_of q'
  end.

(** Every receive of the script succeeds with at least one byte. *)
Definition all_data (q : list recv) : bool :=
  forallb (λ r, match r with
                | RecvData d _ => negb (len d =? 0)
                | RecvErr _ => false
                end) q.

(** Messages as (object ID, opcode, arguments), and their frames in a row. *)
Definition header (m : message) : Z * Z * list byte :=
  (objectID m, opcode m, payload m).
Definition frames (ms : list (Z * Z * list byte)) : list byte :=
  flat_map (λ m, frame m.1.1 m.1.2 m.2) ms.
Definition wire_ok_all (ms : list (Z * Z * list byte)) : Prop :=
  Forall (λ m, wire_ok m.1.1 m.1.2 m.2) ms.

(** A buffer that starts with a header whose size field is below 8. *)
Definition bad_header (buf : list byte) : Prop :=
  8 <= len buf ∧ Uint32 (slice 4 8 buf) ≫ 16 < 8.

(** The descriptors a connection holds or will receive. *)
Definition received (st : State) : list Z :=
  pendingFds st ++ rights_of (incoming st).

End Wayland.

(** * The [clipboard] package: the launcher (linux build) *)

Module Clipboard.

(** The calls [WriteMultiFormat] makes outside the package. *)
Inductive call : Type :=
| CallWriteAll (text : string)
    (* atotto.WriteAll(text): the single-format system clipboard write *)
| CallStart (path : string) (args : list string) (stdin : list byte) (setsid : bool).
    (* exec.Command(path, args...) started with the given standard input
       and SysProcAttr.Setsid *)

(** What the process finds around it: the environment variable ([None]
    when it is not set), the results of the library calls, [os.Args[0]]. *)
Record Host : Type := mkHost {
  WAYLAND_DISPLAY : option string;
  WriteAll_result : string → option Wayland.error;
  json_Marshal : string → string → list byte + Wayland.error;
  Args0 : string;
  Start_result : option Wayland.error
}.

(** [os.Getenv]: the empty string when the variable is not set. *)
Definition Getenv (v : option string) : string := default EmptyString v.

Definition spawnClipboardServer (h : Host) (html plain : string)
  : option Wayland.error * list call :=
  match json_Marshal h html plain with
  | inr err => (Some err, [])
  | inl payload =>
      (Start_result h, [CallStart (Args0 h) ["__clipboard-serve"%string] payload true])
  end.

(** The returned [error] ([None] is [nil]) and the calls made, in order. *)
Definition WriteMultiFormat (h : Host) (html plain : string)
  : option Wayland.error * list call :=
  if String.eqb (Getenv (WAYLAND_DISPLAY h)) EmptyString then
    (* X11 fallback: plain text only. *)
    (WriteAll_result h plain, [CallWriteAll plain])
  else spawnClipboardServer h html plain.

(** A host without a Wayland session whose clipboard write fails with
    [EIO] on the empty string and succeeds otherwise. *)
Definition x11_host : Host :=
  mkHost None
    (λ text, if String.eqb text EmptyString then Some (Wayland.Errno 5) else None)
    (λ _ _, inl []) "adoctl" None.

(** The table [ServeClipboard] builds: the HTML under [text/html], the
    plain text under the four text types. *)
Definition ServeClipboard_formats (html plain : string) : gmap string (list byte) :=
  {[ "text/html"%string := list_byte_of_string html;
     "text/plain;charset=utf-8"%string := list_byte_of_string plain;
     "text/plain"%string := list_byte_of_string plain;
     "UTF8_STRING"%string := list_byte_of_string plain;
     "STRING"%string := list_byte_of_string plain ]}.

Definition ServeClipboard (env : Wayland.Env) (fuel : nat) (html plain : string)
  : Wayland.res unit * list Wayland.syscall :=
  Wayland.Serve env fuel (ServeClipboard_formats html plain).

(** The text types under which the plain text is offered. *)
Definition plain_types : list string :=
  ["text/plain;charset=utf-8"; "text/plain"; "UTF8_STRING"; "STRING"]%string.

End Clipboard.

Import Wayland.

(** * Lemmas *)

(** ** Codec lemmas *)

Lemma Z_of_byte_of_Z v : Z_of_byte (byte_of_Z v) = v mod 256.
Proof.
  unfold Z_of_byte, byte_of_Z.
  assert (Hb : 0 <= v mod 256 < 256) by (apply Z.mod_pos_bound; lia).
  destruct (Byte.of_N (Z.to_N (v mod 256))) as [b|] eqn:E.
  - apply Byte.to_of_N in E. simpl. rewrite E. lia.
  - apply Byte.of_N_None_iff in E. lia.
Qed.

Lemma Z_of_byte_range b : 0 <= Z_of_byte b < 256.
Proof.
  unfold Z_of_byte. pose proof (Byte.to_N_bounded b). lia.
Qed.

Lemma Uint32_le_bytes32 v rest : Uint32 (le_bytes32 v ++ rest) = uint32 v.
Proof.
  unfold le_bytes32, Uint32, uint32. simpl.
  rewrite !Z_of_byte_of_Z.
  change 256 with (2 ^ 8).
  apply Z.bits_inj'. intros n Hn.
  rewrite !Z.lor_spec, !Z.shiftl_spec by lia.
  rewrite !Z.testbit_mod_pow2 by lia.
  destruct (Z.ltb_spec n 8); [|destruct (Z.ltb_spec n 16); [|destruct (Z.ltb_spec n 24);
    [|destruct (Z.ltb_spec n 32)]]];
  repeat match goal with
  | |- context [Z.testbit (?a ≫ ?k) ?i] =>
      first [rewrite (Z.testbit_neg_r (a ≫ k) i) by lia
            |rewrite (Z.shiftr_spec a k i) by lia]
  | |- context [?a <? ?b] => destruct (Z.ltb_spec a b); try lia
  end;
  simpl; rewrite ?orb_false_r, ?andb_true_l, ?andb_false_l; try reflexivity;
  try (f_equal; lia).
Qed.

Lemma uint32_small v : 0 <= v < 2 ^ 32 → uint32 v = v.
Proof. intros H. unfold uint32. apply Z.mod_small. lia. Qed.

Lemma uint32_idemp v : uint32 (uint32 v) = uint32 v.
Proof. unfold uint32. apply Z.mod_mod. lia. Qed.

Lemma uint32_range v : 0 <= uint32 v < 2 ^ 32.
Proof. unfold uint32. apply Z.mod_pos_bound. lia. Qed.

Lemma len_app {A} (a b : list A) : len (a ++ b) = len a + len b.
Proof. unfold len. rewrite length_app. lia. Qed.

Lemma len_nonneg {A} (a : list A) : 0 <= len a.
Proof. unfold len. lia. Qed.

Lemma len_le_bytes32 v : len (le_bytes32 v) = 4.
Proof. reflexivity. Qed.

Lemma len_make n : 0 <= n → len (make n) = n.
Proof. intros H. unfold len, make. rewrite length_replicate. lia. Qed.

(** Rounding up to a multiple of four, as [(n + 3) &^ 3] does. *)
Lemma padded_spec n : Z.ldiff (n + 3) 3 = 4 * ((n + 3) / 4).
Proof.
  change 3 with (Z.ones 2) at 2.
  rewrite Z.ldiff_ones_r by lia.
  rewrite Z.shiftr_div_pow2, Z.shiftl_mul_pow2 by lia.
  change (2 ^ 2) with 4. lia.
Qed.

Lemma padded_bounds n : n <= Z.ldiff (n + 3) 3 < n + 4.
Proof.
  rewrite padded_spec.
  pose proof (Z.div_mod (n + 3) 4 ltac:(lia)).
  pose proof (Z.mod_pos_bound (n + 3) 4 ltac:(lia)). lia.
Qed.

Lemma copy_at_make_0 n src :
  len src <= n → copy_at (make n) 0 src = src ++ make (n - len src).
Proof.
  unfold copy_at, make, len. intros H.
  rewrite length_replicate. change (Z.to_nat 0) with 0%nat.
  rewrite Nat.sub_0_r, Nat.min_r by lia.
  rewrite firstn_all. simpl. f_equal.
  rewrite drop_replicate. f_equal. lia.
Qed.

Lemma copy_at_app a b src :
  copy_at (a ++ b) (len a) src = a ++ copy_at b 0 src.
Proof.
  unfold copy_at, len. rewrite Nat2Z.id. change (Z.to_nat 0) with 0%nat.
  rewrite length_app, Nat.sub_0_r.
  replace (length a + length b - length a)%nat with (length b) by lia.
  rewrite take_app_length. simpl. f_equal. f_equal.
  rewrite drop_app_add'; [reflexivity|lia].
Qed.

Lemma encodeUint32_eq v : encodeUint32 v = le_bytes32 v.
Proof. reflexivity. Qed.

(** The wire layout of a string: length word, bytes, terminator, padding. *)
Lemma encodeString_eq s :
  let n := len (list_byte_of_string s) + 1 in
  encodeString s =
    le_bytes32 (uint32 n) ++ list_byte_of_string s ++ [x00]
      ++ make (Z.ldiff (n + 3) 3 - n).
Proof.
  intros n. unfold encodeString, PutUint32.
  assert (Hn : len (list_byte_of_string s ++ [x00]) = n).
  { rewrite len_app. reflexivity. }
  rewrite Hn.
  pose proof (len_nonneg (list_byte_of_string s)).
  pose proof (padded_bounds n).
  rewrite copy_at_make_0 by (rewrite len_le_bytes32; lia).
  rewrite len_le_bytes32.
  replace (4 + Z.ldiff (n + 3) 3 - 4) with (Z.ldiff (n + 3) 3) by lia.
  pose proof (copy_at_app (le_bytes32 (uint32 n)) (make (Z.ldiff (n + 3) 3))
                (list_byte_of_string s ++ [x00])) as E.
  rewrite len_le_bytes32 in E. rewrite E. f_equal.
  rewrite copy_at_make_0 by (rewrite Hn; lia). rewrite Hn, <- app_assoc. reflexivity.
Qed.

Lemma len_encodeString s :
  len (encodeString s) =
    4 + Z.ldiff (len (list_byte_of_string s) + 1 + 3) 3.
Proof.
  rewrite encodeString_eq. cbv zeta.
  pose proof (len_nonneg (list_byte_of_string s)).
  pose proof (padded_bounds (len (list_byte_of_string s) + 1)).
  rewrite !len_app, len_le_bytes32, len_make by lia.
  change (len [x00]) with 1. lia.
Qed.

(** Decoding what [encodeString] wrote, whatever follows it. *)
Lemma decodeString_encodeString_app s rest :
  len (list_byte_of_string s) + 1 < 2 ^ 32 →
  decodeString (encodeString s ++ rest) = (s, rest, None).
Proof.
  intros Hlen.
  pose proof (len_nonneg (list_byte_of_string s)) as Hs.
  set (n := len (list_byte_of_string s) + 1) in *.
  pose proof (padded_bounds n) as Hp.
  unfold decodeString.
  rewrite len_app, len_encodeString. fold n.
  pose proof (len_nonneg rest).
  destruct (Z.ltb_spec (4 + Z.ldiff (n + 3) 3 + len rest) 4); [lia|].
  rewrite encodeString_eq. fold n. cbv zeta.
  unfold slice_to, slice_from. change (Z.to_nat 4) with 4%nat.
  rewrite <- !app_assoc.
  change (take 4 (le_bytes32 (uint32 n) ++ ?l)) with (le_bytes32 (uint32 n)).
  change (drop 4 (le_bytes32 (uint32 n) ++ ?l)) with l.
  rewrite <- (app_nil_r (le_bytes32 _)), Uint32_le_bytes32, uint32_idemp.
  rewrite uint32_small by lia.
  destruct (Z.eqb_spec n 0); [lia|].
  rewrite !len_app, len_make by lia. change (len [x00]) with 1.
  destruct (Z.ltb_spec (len (list_byte_of_string s) + (1 + (Z.ldiff (n + 3) 3 - n + len rest)))
              (Z.ldiff (n + 3) 3)); [lia|].
  do 2 f_equal.
  - replace (Z.to_nat (n - 1)) with (length (list_byte_of_string s)) by (unfold n, len; lia).
    rewrite take_app_length. apply string_of_list_byte_of_string.
  - rewrite !app_assoc.
    rewrite drop_app_length'; [reflexivity|].
    rewrite !length_app. unfold make. rewrite length_replicate. simpl.
    unfold n, len in *. lia.
Qed.

Lemma len_list_byte_of_string_long :
  len (list_byte_of_string long_string) = 2 ^ 32 - 1.
Proof.
  unfold long_string. rewrite list_byte_of_string_of_list_byte.
  unfold len. rewrite length_replicate. apply Z2Nat.id. lia.
Qed.

Lemma forallb_replicate {A} (f : A → bool) n x :
  f x = true → forallb f (replicate n x) = true.
Proof.
  intros Hx. induction n as [|n IH]; [reflexivity|].
  cbn [replicate forallb]. rewrite Hx, IH. reflexivity.
Qed.

Lemma nul_free_long_string : nul_free long_string = true.
Proof.
  unfold nul_free, long_string. rewrite list_byte_of_string_of_list_byte.
  apply forallb_replicate. reflexivity.
Qed.

(** The length word [encodeString] writes. *)
Lemma encodeString_length_word s :
  Uint32 (slice_to 4 (encodeString s)) = uint32 (len (list_byte_of_string s) + 1).
Proof.
  rewrite encodeString_eq. cbv zeta. unfold slice_to.
  change (Z.to_nat 4) with 4%nat.
  change (take 4 (le_bytes32 ?v ++ ?l)) with (le_bytes32 v).
  rewrite <- (app_nil_r (le_bytes32 _)), Uint32_le_bytes32.
  apply uint32_idemp.
Qed.

Lemma decodeString_length_0 data :
  4 <= len data → Uint32 (slice_to 4 data) = 0 →
  decodeString data = (EmptyString, slice_from 4 data, None).
Proof.
  intros Hlen Hz. unfold decodeString.
  destruct (Z.ltb_spec (len data) 4); [lia|].
  rewrite Hz. reflexivity.
Qed.

(** ** The monad and the loops *)

Ltac munfold :=
  unfold mbind, M_bind, mret, M_ret, attempt, close_if_fd, sys_close,
    sys_write, return_err in *.

Lemma logged_nil st : logged st [] = st.
Proof. destruct st. unfold logged. simpl. rewrite app_nil_r. reflexivity. Qed.

Lemma logged_logged st a b : logged (logged st a) b = logged st (a ++ b).
Proof. unfold logged. simpl. rewrite app_assoc. reflexivity. Qed.

Lemma log_logged st ev : log ev st = logged st [ev].
Proof. reflexivity. Qed.

(** [readMsg] neither reads nor writes the trace. *)
Lemma readMsg_logged st evs :
  readMsg (logged st evs) = ((readMsg st).1, logged (readMsg st).2 evs).
Proof.
  unfold readMsg, logged. simpl.
  destruct (readMsg_loop _ _ _) as [r [[buf fds] q]]. reflexivity.
Qed.

Lemma readMsg_trace st : trace (readMsg st).2 = trace st.
Proof.
  unfold readMsg.
  destruct (readMsg_loop _ _ _) as [r [[buf fds] q]]. reflexivity.
Qed.

Lemma readMsg_c_fd st : c_fd (readMsg st).2 = c_fd st.
Proof.
  unfold readMsg.
  destruct (readMsg_loop _ _ _) as [r [[buf fds] q]]. reflexivity.
Qed.

Lemma read_n_logged n : ∀ st evs ms st1,
  read_n n st = Some (ms, st1) →
  read_n n (logged st evs) = Some (ms, logged st1 evs).
Proof.
  induction n as [|n IH]; intros st evs ms st1 H; cbn [read_n] in *.
  - injection H as <- <-. reflexivity.
  - rewrite readMsg_logged.
    destruct (readMsg st) as [[m0| | | |] st0]; try discriminate.
    destruct (read_n n st0) as [[ms0 st2]|] eqn:E1; [|discriminate].
    injection H as <- <-. cbn [fst snd].
    rewrite (IH _ evs _ _ E1). reflexivity.
Qed.

Lemma read_n_trace n : ∀ st ms st1,
  read_n n st = Some (ms, st1) → trace st1 = trace st ∧ c_fd st1 = c_fd st.
Proof.
  induction n as [|n IH]; intros st ms st1 H; cbn [read_n] in *.
  - injection H as <- <-. split; reflexivity.
  - pose proof (readMsg_trace st) as Ht. pose proof (readMsg_c_fd st) as Hf.
    destruct (readMsg st) as [[m0| | | |] st0]; try discriminate.
    destruct (read_n n st0) as [[ms0 st2]|] eqn:E1; [|discriminate].
    injection H as <- <-. apply IH in E1 as [-> ->]. split; assumption.
Qed.

(** One round of the event loop on a message that arrives. *)
Lemma serveRequests_message formats st m st1 :
  readMsg st = (Val m, st1) →
  serveRequests formats () st =
    (Val (if is_cancelled m then inr () else inl ()),
     logged st1 (answer formats m)).
Proof.
  intros H. unfold serveRequests. munfold.
  rewrite H.
  unfold answer, is_cancelled, closes.
  destruct (objectID m =? idDCSource); cbn [negb andb flat_map].
  - destruct (opcode m =? 0) eqn:E0; cbn [andb].
    + destruct (decodeString (payload m)) as [[mimeType rest] e] eqn:Ed.
      cbn [fst].
      replace (opcode m =? 1) with false by (symmetry; lia).
      destruct (0 <=? msg_fd m).
      * destruct (formats !! mimeType); rewrite ?log_logged, ?logged_logged; reflexivity.
      * rewrite logged_nil. reflexivity.
    + destruct (opcode m =? 1); rewrite logged_nil; reflexivity.
  - destruct (0 <=? msg_fd m); rewrite ?app_nil_r, ?logged_nil; reflexivity.
Qed.

(** One round of the event loop when the transport fails. *)
Lemma serveRequests_error formats st e st1 :
  readMsg st = (Fail e, st1) →
  serveRequests formats () st = (Val (inr ()), st1).
Proof.
  intros H. unfold serveRequests. munfold. rewrite H. reflexivity.
Qed.

(** The event loop works through the messages that do not end it. *)
Lemma eventLoop_messages formats : ∀ ms fuel st st1,
  read_n (length ms) st = Some (ms, st1) →
  forallb (λ m, negb (is_cancelled m)) ms = true →
  eventLoop (length ms + fuel) formats st =
    eventLoop fuel formats (logged st1 (flat_map (answer formats) ms)).
Proof.
  unfold eventLoop.
  induction ms as [|m ms IH]; intros fuel st st1 Hn Hc.
  - simpl in Hn. injection Hn as <-. simpl. rewrite logged_nil. reflexivity.
  - cbn [length read_n] in Hn.
    destruct (readMsg st) as [[m0| | | |] st0] eqn:E0; try discriminate.
    destruct (read_n (length ms) st0) as [[ms0 st2]|] eqn:E1; [|discriminate].
    injection Hn as -> -> ->.
    cbn [forallb] in Hc. apply andb_prop in Hc as [Hm Hc].
    apply negb_true_iff in Hm.
    cbn [length Nat.add loop]. unfold mbind at 1, M_bind at 1.
    rewrite (serveRequests_message _ _ _ _ E0), Hm.
    rewrite (IH fuel _ _ (read_n_logged _ _ (answer formats m) _ _ E1) Hc).
    cbn [flat_map]. rewrite logged_logged. reflexivity.
Qed.

Lemma Serve_serving env fuel formats st :
  serving env fuel formats = Some st →
  Serve env fuel formats =
    ((deferred_close (eventLoop fuel formats) st).1,
     trace (deferred_close (eventLoop fuel formats) st).2).
Proof.
  unfold serving, Serve. intros H.
  destruct (String.eqb (XDG_RUNTIME_DIR env) EmptyString); [discriminate|].
  destruct (newConn env _) as [[st0| | | |] tr0]; try discriminate.
  destruct (handshake env fuel formats st0) as [[[]| | | |] st'] eqn:Eh; try discriminate.
  injection H as ->.
  unfold deferred_close, session. unfold mbind at 1, M_bind at 1.
  rewrite Eh.
  destruct (eventLoop fuel formats st) as [[[]| | | |] st2]; reflexivity.
Qed.

(** The event loop after the messages [ms], none of them [cancelled]. *)
Lemma eventLoop_after formats fuel st st1 ms :
  read_n (length ms) st = Some (ms, st1) →
  forallb (λ m, negb (is_cancelled m)) ms = true →
  (length ms < fuel)%nat →
  eventLoop fuel formats st =
    eventLoop (S (fuel - length ms - 1)) formats
      (logged st1 (flat_map (answer formats) ms)).
Proof.
  intros Hn Hms Hfuel.
  replace fuel with (length ms + S (fuel - length ms - 1))%nat at 1 by lia.
  apply eventLoop_messages; assumption.
Qed.

(** ** Framing *)

Lemma Uint32_le_bytes32_exact v : Uint32 (le_bytes32 v) = uint32 v.
Proof. rewrite <- (app_nil_r (le_bytes32 v)). apply Uint32_le_bytes32. Qed.

Lemma header_word_size opc size :
  0 <= opc < 2 ^ 16 → 0 <= size < 2 ^ 16 →
  Z.lor opc (size ≪ 16) ≫ 16 = size.
Proof.
  intros Hopc Hsize.
  rewrite Z.shiftr_lor, Z.shiftr_shiftl_l by lia.
  rewrite Z.shiftr_div_pow2, Z.div_small by lia.
  change (16 - 16) with 0. rewrite Z.shiftl_0_r. reflexivity.
Qed.

Lemma header_word_opcode opc size :
  0 <= opc < 2 ^ 16 → 0 <= size < 2 ^ 16 →
  Z.land (Z.lor opc (size ≪ 16)) 65535 = opc.
Proof.
  intros Hopc Hsize.
  change 65535 with (Z.ones 16).
  rewrite Z.land_lor_distr_l, !Z.land_ones by lia.
  rewrite Z.shiftl_mul_pow2, Z.mod_mul, Z.lor_0_r by lia.
  apply Z.mod_small. lia.
Qed.

Lemma header_word_uint32 opc size :
  0 <= opc < 2 ^ 16 → 0 <= size < 2 ^ 16 →
  uint32 (Z.lor opc (size ≪ 16)) = Z.lor opc (size ≪ 16).
Proof.
  intros Hopc Hsize.
  unfold uint32. rewrite <- Z.land_ones by lia.
  rewrite Z.land_lor_distr_l, !Z.land_ones by lia.
  rewrite Z.shiftl_mul_pow2 by lia.
  rewrite (Z.mod_small opc), (Z.mod_small (size * 2 ^ 16)) by lia.
  reflexivity.
Qed.

Lemma len_frame oid opc args : len (frame oid opc args) = 8 + len args.
Proof. unfold frame. rewrite !len_app, !len_le_bytes32. lia. Qed.

(** A complete frame at the front of the buffer is split off whole. *)
Lemma buffered_frame oid opc args rest :
  wire_ok oid opc args →
  buffered (frame oid opc args ++ rest) = Some (oid, opc, args, rest).
Proof.
  intros (Hoid & Hopc & Hsz).
  pose proof (len_nonneg args) as Ha. pose proof (len_nonneg rest) as Hr.
  unfold buffered. rewrite len_app, len_frame.
  destruct (Z.leb_spec 8 (8 + len args + len rest)); [|lia].
  assert (E1 : slice 4 8 (frame oid opc args ++ rest)
               = le_bytes32 (Z.lor opc ((8 + len args) ≪ 16))) by reflexivity.
  assert (E0 : slice 0 4 (frame oid opc args ++ rest) = le_bytes32 oid) by reflexivity.
  rewrite E1, E0, !Uint32_le_bytes32_exact.
  rewrite header_word_uint32, header_word_size, header_word_opcode by lia.
  rewrite (uint32_small oid) by lia.
  unfold uint16. rewrite (Z.mod_small opc) by lia.
  destruct (Z.leb_spec 8 (8 + len args)); [|lia].
  destruct (Z.leb_spec (8 + len args) (8 + len args + len rest)); [|lia].
  cbn [andb].
  assert (E2 : slice 8 (8 + len args) (frame oid opc args ++ rest) = args).
  { unfold slice, frame. rewrite <- !app_assoc.
    change (drop (Z.to_nat 8) (le_bytes32 oid ++ le_bytes32 ?w ++ ?l)) with l.
    replace (Z.to_nat (8 + len args - 8)) with (length args) by (unfold len; lia).
    apply take_app_length. }
  assert (E3 : slice_from (8 + len args) (frame oid opc args ++ rest) = rest).
  { unfold slice_from. rewrite <- (len_frame oid opc args). unfold len. rewrite Nat2Z.id.
    apply drop_app_length. }
  rewrite E2, E3.
  rewrite copy_at_make_0 by lia.
  replace (8 + len args - 8 - len args) with 0 by lia.
  change (make 0) with (@nil byte). rewrite app_nil_r. reflexivity.
Qed.

(** Nothing is split off while the frame is still incomplete. *)
Lemma buffered_incomplete oid opc args buf more :
  wire_ok oid opc args →
  buf ++ more = frame oid opc args → more ≠ [] →
  buffered buf = None.
Proof.
  intros (Hoid & Hopc & Hsz) Hsplit Hmore.
  pose proof (len_nonneg args) as Ha.
  assert (Hlen : len buf < 8 + len args).
  { rewrite <- (len_frame oid opc args), <- Hsplit, len_app.
    destruct more; [congruence|]. unfold len. simpl. lia. }
  unfold buffered.
  destruct (Z.leb_spec 8 (len buf)) as [H8|]; [|reflexivity].
  assert (E1 : slice 4 8 buf = le_bytes32 (Z.lor opc ((8 + len args) ≪ 16))).
  { transitivity (slice 4 8 (buf ++ more)).
    - unfold slice. rewrite drop_app_le by (unfold len in H8; lia).
      rewrite take_app_le; [reflexivity|].
      rewrite length_drop. unfold len in H8. lia.
    - rewrite Hsplit. reflexivity. }
  rewrite E1, Uint32_le_bytes32_exact.
  rewrite header_word_uint32, header_word_size by lia.
  destruct (Z.leb_spec 8 (8 + len args)); [|lia].
  destruct (Z.leb_spec (8 + len args) (len buf)); [lia|]. reflexivity.
Qed.

Lemma readMsg_loop_empty fds : readMsg_loop [] [] fds = (Block, ([], fds, [])).
Proof. reflexivity. Qed.

(** [readMsg] over a frame that arrives in pieces, with whatever
    descriptors come along. *)
Lemma readMsg_loop_chunks oid opc args :
  wire_ok oid opc args →
  ∀ (chunks : list (list byte * list Z)) buf fds,
    Forall (λ c, c.1 ≠ []) chunks →
    buf ++ List.concat (map fst chunks) = frame oid opc args →
    readMsg_loop (map (λ c, RecvData c.1 c.2) chunks) buf fds =
      (Val (mkMessage oid opc args (hd (-1) (fds ++ List.concat (map snd chunks)))),
       ([], tl (fds ++ List.concat (map snd chunks)), [])).
Proof.
  intros Hok chunks.
  induction chunks as [|[data rights] chunks IH]; intros buf fds Hne Hsplit.
  - cbn [map List.concat] in *. rewrite app_nil_r in *. subst buf.
    cbn [readMsg_loop].
    rewrite <- (app_nil_r (frame oid opc args)), (buffered_frame _ _ _ [] Hok).
    destruct fds; reflexivity.
  - cbn [map List.concat fst snd] in *.
    apply Forall_cons in Hne as [Hd Hne]. cbn [fst] in Hd.
    cbn [readMsg_loop].
    rewrite (buffered_incomplete oid opc args buf _ Hok Hsplit)
      by (destruct data; [congruence|discriminate]).
    assert (Hlen : (len data =? 0) = false).
    { destruct data; [congruence|]. reflexivity. }
    rewrite Hlen.
    rewrite (IH (buf ++ data) (fds ++ rights) Hne) by (rewrite <- app_assoc; exact Hsplit).
    rewrite <- app_assoc. reflexivity.
Qed.

(** ** Requests *)

(** [sendMsg] writes the frame of its arguments when they fit. *)
Lemma sendMsg_frame oid opc args :
  wire_ok oid opc args →
  sendMsg oid opc args = sock_write (frame oid opc args).
Proof.
  intros (Hoid & Hopc & Hsz).
  pose proof (len_nonneg args) as Ha.
  unfold sendMsg, uint16. rewrite (Z.mod_small (8 + len args)) by lia.
  destruct (Z.ltb_spec (8 + len args) 8); [lia|].
  f_equal. unfold PutUint32.
  rewrite (uint32_small opc), (uint32_small (8 + len args)) by lia.
  rewrite uint32_small
    by (rewrite Z.shiftl_mul_pow2 by lia; lia).
  rewrite copy_at_make_0 by (rewrite len_le_bytes32; lia).
  rewrite len_le_bytes32.
  pose proof (copy_at_app (le_bytes32 oid) (make (8 + len args - 4))
                (le_bytes32 (Z.lor opc ((8 + len args) ≪ 16)))) as E.
  rewrite len_le_bytes32 in E. rewrite E. clear E.
  rewrite copy_at_make_0 by (rewrite len_le_bytes32; lia).
  rewrite len_le_bytes32.
  pose proof (copy_at_app
                (le_bytes32 oid ++ le_bytes32 (Z.lor opc ((8 + len args) ≪ 16)))
                (make (8 + len args - 4 - 4)) args) as E.
  change (len (le_bytes32 oid ++ le_bytes32 _)) with 8 in E.
  rewrite <- app_assoc in E. rewrite E. clear E.
  rewrite copy_at_make_0 by lia.
  replace (8 + len args - 4 - 4 - len args) with 0 by lia.
  change (make 0) with (@nil byte). rewrite app_nil_r.
  unfold frame. rewrite <- app_assoc. reflexivity.
Qed.

Lemma next_writes_ok_S n st :
  next_writes_ok (S n) st = true →
  (wr_results st = [] ∨ ∃ rs, wr_results st = None :: rs)
  ∧ ∀ tr, next_writes_ok n (with_io st (tl (wr_results st)) tr) = true.
Proof.
  unfold next_writes_ok. destruct (wr_results st) as [|[e|] rs]; cbn.
  - intros _. split; [left; reflexivity|]. intros _. destruct n; reflexivity.
  - discriminate.
  - intros H. split; [right; eexists; reflexivity|]. intros _. exact H.
Qed.

(** A request whose write succeeds. *)
Lemma sendMsg_ok oid opc args n st :
  wire_ok oid opc args →
  next_writes_ok (S n) st = true →
  sendMsg oid opc args st =
    (Val (), with_io st (tl (wr_results st))
               (trace st ++ [SysWrite (c_fd st) (frame oid opc args)]))
  ∧ next_writes_ok n
      (with_io st (tl (wr_results st))
         (trace st ++ [SysWrite (c_fd st) (frame oid opc args)])) = true.
Proof.
  intros Hok Hw. rewrite (sendMsg_frame _ _ _ Hok).
  apply next_writes_ok_S in Hw as [Hhd Htl]. split; [|apply Htl].
  unfold sock_write, with_io, log.
  destruct Hhd as [->|[rs ->]]; reflexivity.
Qed.

(** [readMsg] depends on the connection fields only. *)
Lemma readMsg_with_io st wr tr :
  readMsg (with_io st wr tr) = ((readMsg st).1, with_io (readMsg st).2 wr tr).
Proof.
  unfold readMsg, with_io. simpl.
  destruct (readMsg_loop _ _ _) as [r [[buf fds] q]]. reflexivity.
Qed.

Lemma read_n_with_io n : ∀ st wr tr ms st1,
  read_n n st = Some (ms, st1) →
  read_n n (with_io st wr tr) = Some (ms, with_io st1 wr tr).
Proof.
  induction n as [|n IH]; intros st wr tr ms st1 H; cbn [read_n] in *.
  - injection H as <- <-. reflexivity.
  - rewrite readMsg_with_io.
    destruct (readMsg st) as [[m0| | | |] st0]; try discriminate.
    destruct (read_n n st0) as [[ms0 st2]|] eqn:E1; [|discriminate].
    injection H as <- <-. cbn [fst snd].
    rewrite (IH _ wr tr _ _ E1). reflexivity.
Qed.

(** ** The bootstrap loop *)

Lemma closes_app a b : closes (a ++ b) = closes a ++ closes b.
Proof. unfold closes. apply flat_map_app. Qed.

(** One round of the bootstrap loop on a message that arrives. *)
Lemma collectGlobals_message g st m st1 :
  readMsg st = (Val m, st1) →
  collectGlobals g st =
    (Val (if is_done idCallback1 m then inr g else inl (note_global g m)),
     logged st1 (closes [m])).
Proof.
  intros H. unfold collectGlobals. unfold mbind at 1, M_bind at 1. rewrite H.
  assert (Hc : close_if_fd (msg_fd m) st1 = (Val (), logged st1 (closes [m]))).
  { unfold close_if_fd, closes. cbn [flat_map].
    destruct (0 <=? msg_fd m); munfold; rewrite ?app_nil_r, ?logged_nil; reflexivity. }
  unfold mbind at 1, M_bind at 1. rewrite Hc.
  unfold is_done, note_global, advertises.
  destruct (objectID m =? idRegistry) eqn:Eo.
  - replace (objectID m =? idCallback1) with false
      by (symmetry; unfold idRegistry, idCallback1 in *; lia).
    destruct (opcode m =? 0) eqn:Ec; cbn [andb]; [|reflexivity].
    rewrite Z.ltb_antisym.
    destruct (4 <=? len (payload m)); cbn [negb]; [|reflexivity].
    destruct (decodeString (slice_from 4 (payload m))) as [[iface rest] [e|]];
      [reflexivity|].
    destruct (String.eqb iface "wl_seat"); [reflexivity|].
    destruct (String.eqb iface "zwlr_data_control_manager_v1"); reflexivity.
  - cbn [andb].
    destruct ((objectID m =? idCallback1) && (opcode m =? 0)); reflexivity.
Qed.

(** The bootstrap loop works through the messages before [done]. *)
Lemma collectGlobals_messages : ∀ ms fuel g st st1,
  read_n (length ms) st = Some (ms, st1) →
  forallb (λ m, negb (is_done idCallback1 m)) ms = true →
  loop (length ms + fuel) collectGlobals g st =
    loop fuel collectGlobals (fold_left note_global ms g) (logged st1 (closes ms)).
Proof.
  induction ms as [|m ms IH]; intros fuel g st st1 Hn Hd.
  - simpl in Hn. injection Hn as <-. simpl. rewrite logged_nil. reflexivity.
  - cbn [length read_n] in Hn.
    destruct (readMsg st) as [[m0| | | |] st0] eqn:E0; try discriminate.
    destruct (read_n (length ms) st0) as [[ms0 st2]|] eqn:E1; [|discriminate].
    injection Hn as -> -> ->.
    cbn [forallb] in Hd. apply andb_prop in Hd as [Hm Hd].
    apply negb_true_iff in Hm.
    cbn [length Nat.add loop]. unfold mbind at 1, M_bind at 1.
    rewrite (collectGlobals_message _ _ _ _ E0), Hm.
    rewrite (IH fuel _ _ _ (read_n_logged _ _ (closes [m]) _ _ E1) Hd).
    cbn [fold_left]. rewrite logged_logged.
    change (m :: ms) with ([m] ++ ms). rewrite closes_app. reflexivity.
Qed.

Lemma last_name_snoc iface ms m :
  last_name iface (ms ++ [m]) =
    match advertises iface m with
    | Some name => Some name
    | None => last_name iface ms
    end.
Proof.
  unfold last_name. rewrite omap_app.
  destruct (advertises iface m) as [name|] eqn:E; cbn [omap list_omap]; rewrite E.
  - apply last_snoc.
  - rewrite app_nil_r. reflexivity.
Qed.

Lemma advertises_seat_not_manager m name :
  advertises "wl_seat" m = Some name →
  advertises "zwlr_data_control_manager_v1" m = None.
Proof.
  unfold advertises.
  destruct ((objectID m =? idRegistry) && (opcode m =? 0) && (4 <=? len (payload m)));
    [|discriminate].
  destruct (decodeString (slice_from 4 (payload m))) as [[iface rest] [e|]];
    [discriminate|].
  destruct (String.eqb iface "wl_seat") eqn:E; [|discriminate].
  apply String.eqb_eq in E. subst iface. intros _. reflexivity.
Qed.

(** The variables of the bootstrap loop hold the last announced names. *)
Lemma fold_note_global ms :
  let g := fold_left note_global ms no_globals in
  (seatName g, seatFound g) =
    match last_name "wl_seat" ms with Some a => (a, true) | None => (0, false) end
  ∧ (dcManagerName g, dcManagerFound g) =
    match last_name "zwlr_data_control_manager_v1" ms with
    | Some b => (b, true)
    | None => (0, false)
    end.
Proof.
  induction ms as [|m ms IH] using rev_ind; [split; reflexivity|].
  cbv zeta in *. rewrite fold_left_app. cbn [fold_left].
  rewrite !last_name_snoc. destruct IH as [IHs IHm].
  unfold note_global.
  destruct (advertises "wl_seat" m) as [a|] eqn:Ea.
  - rewrite (advertises_seat_not_manager m a Ea). cbn.
    split; [reflexivity|]. exact IHm.
  - destruct (advertises "zwlr_data_control_manager_v1" m) as [b|]; cbn.
    + split; [exact IHs|reflexivity].
    + split; assumption.
Qed.

Lemma Uint32_range b : 0 <= Uint32 b < 2 ^ 32.
Proof.
  destruct b as [|b0 [|b1 [|b2 [|b3 b]]]]; cbn [Uint32]; try lia.
  pose proof (Z_of_byte_range b0). pose proof (Z_of_byte_range b1).
  pose proof (Z_of_byte_range b2). pose proof (Z_of_byte_range b3).
  assert (Hlt : ∀ x s, 0 <= x < 256 → 0 <= s <= 24 → 0 <= x ≪ s < 2 ^ 32).
  { intros x s Hx Hs. rewrite Z.shiftl_mul_pow2 by lia.
    assert (2 ^ s <= 2 ^ 24) by (apply Z.pow_le_mono_r; lia).
    assert (0 < 2 ^ s) by (apply Z.pow_pos_nonneg; lia). nia. }
  assert (Hor : ∀ x y, 0 <= x < 2 ^ 32 → 0 <= y < 2 ^ 32 → 0 <= Z.lor x y < 2 ^ 32).
  { intros x y Hx Hy. split; [apply Z.lor_nonneg; lia|].
    destruct (Z.eq_dec (Z.lor x y) 0) as [->|Hnz]; [lia|].
    apply Z.log2_lt_pow2; [pose proof (proj2 (Z.lor_nonneg x y)); lia|].
    rewrite Z.log2_lor by lia.
    destruct (Z.eq_dec x 0) as [->|]; destruct (Z.eq_dec y 0) as [->|];
      cbn [Z.log2]; try lia;
      apply Z.max_lub_lt; try (apply Z.log2_lt_pow2; lia); cbn; lia. }
  apply Hor; [lia|]. apply Hor; [apply (Hlt _ 8); lia|].
  apply Hor; [apply (Hlt _ 16); lia|apply (Hlt _ 24); lia].
Qed.

Lemma advertises_range iface m name :
  advertises iface m = Some name → 0 <= name < 2 ^ 32.
Proof.
  unfold advertises.
  destruct ((objectID m =? idRegistry) && (opcode m =? 0) && (4 <=? len (payload m)));
    [|discriminate].
  destruct (decodeString (slice_from 4 (payload m))) as [[i rest] [e|]];
    [discriminate|].
  destruct (String.eqb i iface); [|discriminate].
  intros [= <-]. apply Uint32_range.
Qed.

Lemma last_name_range iface ms name :
  last_name iface ms = Some name → 0 <= name < 2 ^ 32.
Proof.
  induction ms as [|m ms IH] using rev_ind; [discriminate|].
  rewrite last_name_snoc.
  destruct (advertises iface m) as [n|] eqn:E; [|exact IH].
  intros [= <-]. eapply advertises_range, E.
Qed.

Ltac solve_wire_ok := repeat split; vm_compute; congruence.

(** Steps 1 to 3: the two requests, then the globals up to [done]. *)
Lemma bootstrap_first_sync fuel st st1 st2 ms d :
  read_n (length ms) st = Some (ms, st1) →
  forallb (λ m, negb (is_done idCallback1 m)) ms = true →
  readMsg st1 = (Val d, st2) →
  is_done idCallback1 d = true →
  next_writes_ok 2 st = true →
  (length ms < fuel)%nat →
  bootstrap fuel st =
    afterFirstSync (fold_left note_global ms no_globals)
      (with_io st2 (tl (tl (wr_results st)))
         (trace st ++ [SysWrite (c_fd st) get_registry_request;
                       SysWrite (c_fd st) (sync_request idCallback1)]
                   ++ closes (ms ++ [d]))).
Proof.
  intros Hn Hnd Hr Hd Hw Hfuel.
  unfold bootstrap.
  destruct (sendMsg_ok idDisplay 1 (encodeUint32 idRegistry) 1 st
              ltac:(solve_wire_ok) Hw) as [E1 Hw1].
  unfold mbind at 1, M_bind at 1. rewrite E1.
  destruct (sendMsg_ok idDisplay 0 (encodeUint32 idCallback1) 0 _
              ltac:(solve_wire_ok) Hw1) as [E2 _].
  unfold mbind at 1, M_bind at 1. rewrite E2.
  cbn [c_fd wr_results trace with_io].
  set (wr := tl (tl (wr_results st))).
  set (tr := (trace st ++ _) ++ _).
  replace fuel with (length ms + S (fuel - length ms - 1))%nat by lia.
  unfold mbind at 1, M_bind at 1.
  rewrite (collectGlobals_messages ms _ no_globals _ _
             (read_n_with_io _ _ wr tr _ _ Hn) Hnd).
  cbn [loop]. unfold mbind at 1, M_bind at 1.
  assert (Hr' : readMsg (logged (with_io st1 wr tr) (closes ms)) =
                (Val d, logged (with_io st2 wr tr) (closes ms))).
  { rewrite readMsg_logged, readMsg_with_io, Hr. reflexivity. }
  rewrite (collectGlobals_message _ _ _ _ Hr'), Hd.
  unfold mret, M_ret. rewrite logged_logged, <- closes_app.
  f_equal. unfold logged, with_io, tr, get_registry_request, sync_request.
  cbn [c_fd inBuf pendingFds incoming wr_results trace].
  rewrite <- !app_assoc. reflexivity.
Qed.

Lemma Serve_connected env fuel formats st :
  connected env = Some st →
  Serve env fuel formats =
    ((deferred_close (session env fuel formats) st).1,
     trace (deferred_close (session env fuel formats) st).2).
Proof.
  unfold connected, Serve. intros H.
  destruct (String.eqb (XDG_RUNTIME_DIR env) EmptyString); [discriminate|].
  destruct (newConn env _) as [[st0| | | |] tr0]; try discriminate.
  injection H as ->.
  destruct (deferred_close (session env fuel formats) st); reflexivity.
Qed.

Lemma omap_bind_name_closes ms : omap bind_name (closes ms) = [].
Proof.
  induction ms as [|m ms IH]; [reflexivity|].
  change (m :: ms) with ([m] ++ ms). rewrite closes_app, omap_app, IH.
  unfold closes. cbn [flat_map]. destruct (0 <=? msg_fd m); reflexivity.
Qed.

Lemma bind_name_bind_request fd name iface version newID :
  wire_ok idRegistry 0
    (encodeUint32 name ++ encodeString iface ++ encodeUint32 version
       ++ encodeUint32 newID) →
  0 <= name < 2 ^ 32 →
  bind_name (SysWrite fd (bind_request name iface version newID)) = Some name.
Proof.
  intros Hok Hname. unfold bind_name, bind_request.
  rewrite <- (app_nil_r (frame _ _ _)), (buffered_frame _ _ _ [] Hok).
  change ((idRegistry =? idRegistry) && (0 =? 0)) with true. cbv iota.
  change (slice_to 4 (encodeUint32 name ++ ?l)) with (le_bytes32 name).
  rewrite Uint32_le_bytes32_exact, uint32_small by lia. reflexivity.
Qed.

Lemma next_writes_ok_2_of_4 st :
  next_writes_ok 4 st = true →
  next_writes_ok 2 st = true
  ∧ ∀ c tr, next_writes_ok 2 (with_io c (tl (tl (wr_results st))) tr) = true.
Proof.
  unfold next_writes_ok. cbn [wr_results with_io].
  destruct (wr_results st) as [|[|] [|[|] [|[|] [|[|] ?]]]]; cbn;
    intros H; try discriminate; split; intros; reflexivity.
Qed.

(** ** The fuel of the loops is enough

    Every round of a loop that goes round again has taken a message of at
    least eight bytes from the buffer and the script, so a loop started
    with more fuel than there are bytes to read never stops for lack of
    fuel. *)

Lemma buffered_shrinks buf oid opc pl rest :
  buffered buf = Some (oid, opc, pl, rest) → (length rest + 8 ≤ length buf)%nat.
Proof.
  unfold buffered.
  destruct (8 <=? len buf); [|discriminate].
  set (size := Uint32 (slice 4 8 buf) ≫ 16).
  destruct (Z.leb_spec 8 size); [|discriminate].
  destruct (Z.leb_spec size (len buf)); [|discriminate].
  intros [= _ _ _ <-]. unfold slice_from. rewrite length_drop.
  unfold len in *. lia.
Qed.

Lemma readMsg_loop_pending : ∀ q buf fds,
  let out := readMsg_loop q buf fds in
  (length out.2.1.1 + script_bytes out.2.2 ≤ length buf + script_bytes q)%nat
  ∧ out.1 ≠ Timeout
  ∧ ∀ m, out.1 = Val m →
      (length out.2.1.1 + script_bytes out.2.2 < length buf + script_bytes q)%nat.
Proof.
  induction q as [|r q IH]; intros buf fds; cbn [readMsg_loop].
  - destruct (buffered buf) as [[[[oid opc] pl] rest]|] eqn:E.
    + apply buffered_shrinks in E.
      destruct fds; cbn; (split; [lia|split; [discriminate|intros; lia]]).
    + cbn. split; [lia|split; discriminate].
  - destruct (buffered buf) as [[[[oid opc] pl] rest]|] eqn:E.
    + apply buffered_shrinks in E.
      destruct fds; cbn [fst snd]; (split; [lia|split; [discriminate|intros; lia]]).
    + destruct r as [data rights|e].
      * destruct (len data =? 0).
        -- cbn. split; [lia|split; discriminate].
        -- specialize (IH (buf ++ data) (fds ++ rights)). cbv zeta in IH.
           rewrite length_app in IH. cbn [script_bytes fold_right].
           fold (script_bytes q).
           destruct IH as (H1 & H2 & H3).
           split; [lia|]. split; [exact H2|].
           intros m Hm. specialize (H3 m Hm). lia.
      * cbn. split; [lia|split; discriminate].
Qed.

Lemma readMsg_pending st :
  (pending (readMsg st).2 ≤ pending st)%nat
  ∧ (readMsg st).1 ≠ Timeout
  ∧ ∀ m, (readMsg st).1 = Val m → (pending (readMsg st).2 < pending st)%nat.
Proof.
  pose proof (readMsg_loop_pending (incoming st) (inBuf st) (pendingFds st)) as H.
  cbv zeta in H. unfold readMsg, pending.
  destruct (readMsg_loop _ _ _) as [r [[buf fds] q]]. exact H.
Qed.

Lemma within_bind {A B} fuel (m : M A) (f : A → M B) :
  within fuel m → (∀ a, within fuel (f a)) → within fuel (m ≫= f).
Proof.
  intros Hm Hf st Hst. unfold mbind, M_bind.
  destruct (Hm st Hst) as [Hle Hnt].
  destruct (m st) as [[a|e| | |] st1]; cbn [fst snd] in *;
    try (split; [exact Hle|discriminate]); [|congruence].
  destruct (Hf a st1 ltac:(lia)) as [Hle2 Hnt2].
  split; [lia|exact Hnt2].
Qed.

Lemma within_ret {A} fuel (a : A) : within fuel (mret a).
Proof. intros st _. split; [reflexivity|discriminate]. Qed.

Lemma within_sendMsg fuel oid opc args : within fuel (sendMsg oid opc args).
Proof.
  intros st _. unfold sendMsg.
  destruct (uint16 (8 + len args) <? 8); [split; [reflexivity|discriminate]|].
  unfold sock_write.
  destruct (wr_results st) as [|[e|] rs]; split; (reflexivity || discriminate).
Qed.

Lemma within_close_if_fd fuel fd : within fuel (close_if_fd fd).
Proof.
  intros st _. unfold close_if_fd.
  destruct (0 <=? fd); split; (reflexivity || discriminate).
Qed.

Lemma within_offerAll fuel mimeTypes : within fuel (offerAll mimeTypes).
Proof.
  induction mimeTypes as [|mimeType more IH]; [apply within_ret|].
  cbn [offerAll]. apply within_bind; [apply within_sendMsg|]. intros _. exact IH.
Qed.

(** A loop whose rounds each take a message has fuel enough. *)
Lemma within_loop {S A} (body : S → M (S + A)) :
  (∀ s st, (pending (body s st).2 ≤ pending st)%nat
           ∧ (body s st).1 ≠ Timeout
           ∧ ∀ s', (body s st).1 = Val (inl s') →
               (pending (body s st).2 < pending st)%nat) →
  ∀ fuel s, within fuel (loop fuel body s).
Proof.
  intros Hbody fuel.
  induction fuel as [|fuel IH]; intros s st Hst; [lia|].
  cbn [loop]. unfold mbind, M_bind.
  destruct (Hbody s st) as (Hle & Hnt & Hlt).
  destruct (body s st) as [[[s'|a]|e| | |] st1]; cbn [fst snd] in *;
    try (split; [exact Hle|discriminate]); [|congruence].
  specialize (Hlt s' eq_refl).
  destruct (IH s' st1 ltac:(lia)) as [Hle2 Hnt2].
  split; [lia|exact Hnt2].
Qed.

Lemma collectGlobals_pending g st :
  (pending (collectGlobals g st).2 ≤ pending st)%nat
  ∧ (collectGlobals g st).1 ≠ Timeout
  ∧ ∀ g', (collectGlobals g st).1 = Val (inl g') →
      (pending (collectGlobals g st).2 < pending st)%nat.
Proof.
  destruct (readMsg_pending st) as (Hle & Hnt & Hlt).
  destruct (readMsg st) as [[m|e| | |] st1] eqn:E; cbn [fst snd] in *.
  - rewrite (collectGlobals_message g st m st1 E). cbn [fst snd].
    change (pending (logged st1 (closes [m]))) with (pending st1).
    specialize (Hlt m eq_refl).
    split; [lia|]. split; [discriminate|]. intros; lia.
  - unfold collectGlobals, mbind, M_bind. rewrite E. cbn.
    split; [exact Hle|split; discriminate].
  - unfold collectGlobals, mbind, M_bind. rewrite E. cbn.
    split; [exact Hle|split; discriminate].
  - unfold collectGlobals, mbind, M_bind. rewrite E. cbn.
    split; [exact Hle|split; discriminate].
  - congruence.
Qed.

Lemma awaitSecondSync_pending u st :
  (pending (awaitSecondSync u st).2 ≤ pending st)%nat
  ∧ (awaitSecondSync u st).1 ≠ Timeout
  ∧ ∀ u', (awaitSecondSync u st).1 = Val (inl u') →
      (pending (awaitSecondSync u st).2 < pending st)%nat.
Proof.
  destruct (readMsg_pending st) as (Hle & Hnt & Hlt).
  unfold awaitSecondSync, mbind, M_bind, close_if_fd, sys_close, mret, M_ret.
  destruct (readMsg st) as [[m|e| | |] st1] eqn:E; cbn [fst snd] in *;
    try (split; [exact Hle|split; discriminate]); [|congruence].
  specialize (Hlt m eq_refl).
  destruct (0 <=? msg_fd m);
    destruct ((objectID m =? idCallback2) && (opcode m =? 0)); cbn [fst snd];
    change (pending (log _ st1)) with (pending st1);
    (split; [lia|split; [discriminate|intros; lia]]).
Qed.

Lemma serveRequests_pending formats u st :
  (pending (serveRequests formats u st).2 ≤ pending st)%nat
  ∧ (serveRequests formats u st).1 ≠ Timeout
  ∧ ∀ u', (serveRequests formats u st).1 = Val (inl u') →
      (pending (serveRequests formats u st).2 < pending st)%nat.
Proof.
  destruct u.
  destruct (readMsg_pending st) as (Hle & Hnt & Hlt).
  destruct (readMsg st) as [[m|e| | |] st1] eqn:E; cbn [fst snd] in *.
  - rewrite (serveRequests_message formats st m st1 E). cbn [fst snd].
    change (pending (logged st1 (answer formats m))) with (pending st1).
    specialize (Hlt m eq_refl).
    split; [lia|]. split; [destruct (is_cancelled m); discriminate|]. intros; lia.
  - rewrite (serveRequests_error formats st e st1 E). cbn.
    split; [exact Hle|split; discriminate].
  - unfold serveRequests, mbind, M_bind, attempt. rewrite E. cbn.
    split; [exact Hle|split; discriminate].
  - unfold serveRequests, mbind, M_bind, attempt. rewrite E. cbn.
    split; [exact Hle|split; discriminate].
  - congruence.
Qed.

Lemma within_afterFirstSync fuel g : within fuel (afterFirstSync g).
Proof.
  unfold afterFirstSync, return_err.
  destruct (negb (seatFound g)); [intros st _; split; [reflexivity|discriminate]|].
  destruct (negb (dcManagerFound g)); [intros st _; split; [reflexivity|discriminate]|].
  apply within_bind; [apply within_sendMsg|intros _; apply within_sendMsg].
Qed.

Lemma within_session env fuel formats : within fuel (session env fuel formats).
Proof.
  unfold session, handshake, bootstrap, claimSelection, eventLoop.
  repeat first
    [ apply within_bind; [|intros ?]
    | apply within_sendMsg
    | apply within_offerAll
    | apply within_afterFirstSync
    | apply (within_loop _ collectGlobals_pending)
    | apply (within_loop _ awaitSecondSync_pending)
    | apply (within_loop _ (serveRequests_pending formats)) ].
Qed.

(** With more fuel than the script has bytes, a run of [Serve] never ends
    for lack of fuel: it returns, panics or waits for the compositor. *)
Lemma Serve_fuel_enough env fuel formats :
  (script_bytes (peer_script env) < fuel)%nat →
  (Serve env fuel formats).1 ≠ Timeout.
Proof.
  intros Hfuel. unfold Serve.
  destruct (String.eqb (XDG_RUNTIME_DIR env) EmptyString); [discriminate|].
  unfold newConn.
  destruct (socket_result env) as [fd|e]; [|discriminate].
  destruct (connect_result env _); [discriminate|].
  set (st := mkState fd [] [] (peer_script env) (write_script env) []).
  destruct (within_session env fuel formats st Hfuel) as [_ Hnt].
  unfold deferred_close.
  destruct (session env fuel formats st) as [[[]|e| | |] st1]; cbn in *;
    congruence || discriminate.
Qed.

(** ** The connection keeps its descriptor *)

Lemma keeps_fd_bind {A B} (m : M A) (f : A → M B) :
  keeps_fd m → (∀ a, keeps_fd (f a)) → keeps_fd (m ≫= f).
Proof.
  intros Hm Hf st. unfold mbind, M_bind. specialize (Hm st).
  destruct (m st) as [[a|e| | |] st1]; cbn [fst snd] in *; try exact Hm.
  rewrite (Hf a st1). exact Hm.
Qed.

Lemma keeps_fd_ret {A} (a : A) : keeps_fd (mret a).
Proof. intros st. reflexivity. Qed.

Lemma keeps_fd_readMsg : keeps_fd readMsg.
Proof. intros st. apply readMsg_c_fd. Qed.

Lemma keeps_fd_attempt {A} (m : M A) : keeps_fd m → keeps_fd (attempt m).
Proof.
  intros Hm st. unfold attempt. specialize (Hm st).
  destruct (m st) as [[a|e| | |] st1]; exact Hm.
Qed.

Lemma keeps_fd_sendMsg oid opc args : keeps_fd (sendMsg oid opc args).
Proof.
  intros st. unfold sendMsg.
  destruct (uint16 (8 + len args) <? 8); [reflexivity|].
  unfold sock_write. destruct (wr_results st) as [|[e|] rs]; reflexivity.
Qed.

Lemma keeps_fd_sys_close fd : keeps_fd (sys_close fd).
Proof. intros st. reflexivity. Qed.

Lemma keeps_fd_sys_write fd data : keeps_fd (sys_write fd data).
Proof. intros st. reflexivity. Qed.

Lemma keeps_fd_close_if_fd fd : keeps_fd (close_if_fd fd).
Proof. intros st. unfold close_if_fd. destruct (0 <=? fd); reflexivity. Qed.

Lemma keeps_fd_offerAll mimeTypes : keeps_fd (offerAll mimeTypes).
Proof.
  induction mimeTypes as [|mimeType more IH]; [apply keeps_fd_ret|].
  cbn [offerAll]. apply keeps_fd_bind; [apply keeps_fd_sendMsg|intros _; exact IH].
Qed.

Lemma keeps_fd_loop {S A} (body : S → M (S + A)) :
  (∀ s, keeps_fd (body s)) → ∀ fuel s, keeps_fd (loop fuel body s).
Proof.
  intros Hbody fuel. induction fuel as [|fuel IH]; intros s; [intros st; reflexivity|].
  cbn [loop]. apply keeps_fd_bind; [apply Hbody|].
  intros [s'|a]; [apply IH|apply keeps_fd_ret].
Qed.

Ltac keeps_fd_steps :=
  repeat first
    [ apply keeps_fd_ret
    | apply keeps_fd_readMsg
    | apply keeps_fd_attempt
    | apply keeps_fd_sendMsg
    | apply keeps_fd_sys_close
    | apply keeps_fd_sys_write
    | apply keeps_fd_close_if_fd
    | apply keeps_fd_offerAll
    | apply keeps_fd_bind; [|intros ?]
    | match goal with
      | |- keeps_fd (if ?c then _ else _) => destruct c
      | |- keeps_fd (match ?o with Some _ => _ | None => _ end) => destruct o
      | |- keeps_fd (match ?o with inl _ => _ | inr _ => _ end) => destruct o
      | |- context [decodeString ?d] => destruct (decodeString d) as [[? ?] ?]
      end ].

Lemma keeps_fd_collectGlobals g : keeps_fd (collectGlobals g).
Proof. unfold collectGlobals. keeps_fd_steps. Qed.

Lemma keeps_fd_awaitSecondSync u : keeps_fd (awaitSecondSync u).
Proof. unfold awaitSecondSync. keeps_fd_steps. Qed.

Lemma keeps_fd_serveRequests formats u : keeps_fd (serveRequests formats u).
Proof. unfold serveRequests. keeps_fd_steps. Qed.

Lemma keeps_fd_handshake env fuel formats : keeps_fd (handshake env fuel formats).
Proof.
  unfold handshake, bootstrap, claimSelection, afterFirstSync, return_err.
  repeat first
    [ apply (keeps_fd_loop _ keeps_fd_collectGlobals)
    | apply (keeps_fd_loop _ keeps_fd_awaitSecondSync)
    | progress keeps_fd_steps
    | intros st; reflexivity ].
Qed.

(** The descriptor of the state that enters the event loop is the socket
    that [syscall.Socket] returned. *)
Lemma serving_socket env fuel formats st :
  serving env fuel formats = Some st → socket_result env = inl (c_fd st).
Proof.
  unfold serving, newConn.
  destruct (String.eqb (XDG_RUNTIME_DIR env) EmptyString); [discriminate|].
  destruct (socket_result env) as [fd|e]; [|discriminate].
  destruct (connect_result env _); [discriminate|].
  pose proof (keeps_fd_handshake env fuel formats
                (mkState fd [] [] (peer_script env) (write_script env) [])) as H.
  destruct (handshake env fuel formats _) as [[[]|e| | |] st1]; try discriminate.
  intros [= <-]. cbn in H. rewrite H. reflexivity.
Qed.

(** * The properties of the design document *)

(** ** C1: answering a paste request *)

(** C1. In the event loop, a [send] event on the data source that comes
    with a descriptor ([0 <= fd]) is answered as follows: when the
    requested MIME type is a key of the offer table, by one [Write] of the
    whole payload to the descriptor followed by its [Close]; otherwise by
    the [Close] alone, with nothing written. The loop then goes on. *)
Theorem serve_send (formats : gmap string (list byte)) (st st1 : State)
    (m : message) (mimeType : string) (rest : list byte) (e : option error) :
  readMsg st = (Val m, st1) →
  objectID m = idDCSource → opcode m = 0 → 0 <= msg_fd m →
  decodeString (payload m) = (mimeType, rest, e) →
  ∃ st2, serveRequests formats () st = (Val (inl ()), st2)
    ∧ trace st2 = trace st ++
        match formats !! mimeType with
        | Some data => [SysWrite (msg_fd m) data; SysClose (msg_fd m)]
        | None => [SysClose (msg_fd m)]
        end.
Proof.
  intros Hr Ho Hc Hfd Hd.
  rewrite (serveRequests_message formats st m st1 Hr).
  unfold is_cancelled, answer. rewrite Ho, Hc, Hd. cbn [fst].
  change (idDCSource =? idDCSource) with true.
  change (0 =? 1) with false. change (0 =? 0) with true. cbn [andb negb].
  destruct (Z.leb_spec 0 (msg_fd m)); [|lia].
  eexists. split; [reflexivity|].
  unfold logged. cbn [trace].
  pose proof (readMsg_trace st) as Ht. rewrite Hr in Ht. cbn [snd] in Ht.
  rewrite Ht. reflexivity.
Qed.

Lemma serve_send_witness :
  ∃ st2,
    serveRequests offer_table ()
      (fresh_conn [RecvData (send_event "text/plain") [12]]) = (Val (inl ()), st2)
    ∧ trace st2 = [SysWrite 12 (list_byte_of_string "hello"); SysClose 12].
Proof.
  apply (serve_send offer_table
           (fresh_conn [RecvData (send_event "text/plain") [12]])
           (fresh_conn [])
           (mkMessage idDCSource 0 (encodeString "text/plain") 12)
           "text/plain" [] None).
  - vm_compute. reflexivity.
  - reflexivity.
  - reflexivity.
  - vm_compute. discriminate.
  - vm_compute. reflexivity.
Defined.

(** A request for a type that is not offered: nothing is written, the
    descriptor is closed. *)
Example serve_send_unknown :
  trace (serveRequests offer_table ()
           (fresh_conn [RecvData (send_event "application/x-unknown") [12]])).2
  = [SysClose 12].
Proof. vm_compute. reflexivity. Qed.

(** ** C2: cancellation *)

(** C2. Once a run of [Serve] has entered the event loop (in state [st]),
    and after any messages [ms] that are not [cancelled] events on the
    data source, a [cancelled] event on the data source makes [Serve]
    return [nil]; its last system call closes the connection's socket,
    the descriptor [syscall.Socket] had returned. *)
Theorem Serve_cancelled (env : Env) (fuel : nat) (formats : gmap string (list byte))
    (st st1 st2 : State) (ms : list message) (m : message) :
  serving env fuel formats = Some st →
  read_n (length ms) st = Some (ms, st1) →
  forallb (λ m, negb (is_cancelled m)) ms = true →
  readMsg st1 = (Val m, st2) →
  is_cancelled m = true →
  (length ms < fuel)%nat →
  Serve env fuel formats =
    (Val (), trace st ++ flat_map (answer formats) ms ++ [SysClose (c_fd st)])
  ∧ socket_result env = inl (c_fd st).
Proof.
  intros Hs Hn Hms Hr Hm Hfuel.
  split; [|exact (serving_socket _ _ _ _ Hs)].
  rewrite (Serve_serving _ _ _ _ Hs).
  assert (E : eventLoop fuel formats st =
              (Val (), logged st2 (flat_map (answer formats) ms))).
  { replace fuel with (length ms + S (fuel - length ms - 1))%nat by lia.
    rewrite (eventLoop_messages formats ms _ st st1 Hn Hms).
    unfold eventLoop. cbn [loop]. unfold mbind, M_bind.
    assert (Hr' : readMsg (logged st1 (flat_map (answer formats) ms)) =
                  (Val m, logged st2 (flat_map (answer formats) ms))).
    { rewrite readMsg_logged, Hr. reflexivity. }
    rewrite (serveRequests_message formats _ _ _ Hr'), Hm.
    assert (Ha : answer formats m = []).
    { unfold is_cancelled in Hm. apply andb_prop in Hm as [Ho Hc].
      unfold answer. rewrite Ho. cbn [negb].
      replace (opcode m =? 0) with false by (symmetry; lia). reflexivity. }
    rewrite Ha, logged_nil. reflexivity. }
  unfold deferred_close. rewrite E. cbn [fst snd].
  unfold close, sys_close, log, logged. cbn [fst snd trace c_fd].
  destruct (read_n_trace _ _ _ _ Hn) as [Ht Hf].
  pose proof (readMsg_trace st1) as Ht2. pose proof (readMsg_c_fd st1) as Hf2.
  rewrite Hr in Ht2, Hf2. cbn [snd] in Ht2, Hf2.
  rewrite Ht2, Hf2, Ht, Hf, <- app_assoc. reflexivity.
Qed.

Lemma Serve_cancelled_witness :
  Serve (peer_env (handshake_script ++
           [RecvData (send_event "text/plain") [12]; RecvData cancelled_event []]))
        20 offer_table
  = (Val (),
     trace (serving_state
              [RecvData (send_event "text/plain") [12]; RecvData cancelled_event []])
     ++ [SysWrite 12 (list_byte_of_string "hello"); SysClose 12] ++ [SysClose 3])
  ∧ socket_result
      (peer_env (handshake_script ++
         [RecvData (send_event "text/plain") [12]; RecvData cancelled_event []]))
    = inl 3.
Proof.
  apply (Serve_cancelled
           (peer_env (handshake_script ++
              [RecvData (send_event "text/plain") [12]; RecvData cancelled_event []]))
           20 offer_table
           (serving_state
              [RecvData (send_event "text/plain") [12]; RecvData cancelled_event []])
           (readMsg (serving_state
              [RecvData (send_event "text/plain") [12]; RecvData cancelled_event []])).2
           (readMsg (readMsg (serving_state
              [RecvData (send_event "text/plain") [12]; RecvData cancelled_event []])).2).2
           [mkMessage idDCSource 0 (encodeString "text/plain") 12]
           (mkMessage idDCSource 1 [] (-1))).
  - vm_compute. reflexivity.
  - vm_compute. reflexivity.
  - reflexivity.
  - vm_compute. reflexivity.
  - reflexivity.
  - vm_compute. lia.
Defined.

(** ** C3: decoding an encoded string *)

(** C3, as amended. For every string [s] without NUL bytes whose length
    with the terminator fits the 32-bit length word (fewer than [2^32 - 1]
    bytes), [decodeString (encodeString s)] is [s], an empty remaining
    buffer and no error. *)
Theorem decodeString_encodeString (s : string) :
  nul_free s = true →
  len (list_byte_of_string s) + 1 < 2 ^ 32 →
  decodeString (encodeString s) = (s, [], None).
Proof.
  intros _ Hlen.
  rewrite <- (app_nil_r (encodeString s)).
  apply decodeString_encodeString_app. exact Hlen.
Qed.

Lemma decodeString_encodeString_witness :
  nul_free "wl_seat" = true ∧
  decodeString (encodeString "wl_seat") = ("wl_seat"%string, [], None).
Proof.
  split; [reflexivity|].
  apply (decodeString_encodeString "wl_seat"); [reflexivity|].
  vm_compute. reflexivity.
Defined.

(** C3 as stated fails for the NUL-free string of [2^32 - 1] bytes: the
    length word wraps to 0 and the decoder answers the empty string. *)
Lemma decodeString_encodeString_long :
  nul_free long_string = true ∧
  decodeString (encodeString long_string) ≠ (long_string, [], None).
Proof.
  split; [apply nul_free_long_string|].
  rewrite decodeString_length_0.
  - intros H.
    pose proof (f_equal (λ r, len (list_byte_of_string r.1.1)) H) as E.
    cbv beta iota delta [fst] in E.
    rewrite len_list_byte_of_string_long in E.
    change (len (list_byte_of_string EmptyString)) with 0 in E. lia.
  - rewrite len_encodeString. rewrite len_list_byte_of_string_long.
    pose proof (padded_bounds (2 ^ 32 - 1 + 1)). lia.
  - rewrite encodeString_length_word, len_list_byte_of_string_long.
    reflexivity.
Qed.

(** ** C4: framing tolerates fragmentation *)

(** C4. A well-formed wire message cut into any sequence of non-empty
    chunks, one chunk per receive, on a connection with nothing buffered:
    [readMsg] hands out exactly the original message (object ID, opcode
    and payload), having taken every chunk; the buffer is then empty, and
    the next [readMsg] finds no further message and waits. A descriptor
    that came with the chunks is the one attached. *)
Theorem readMsg_fragmented (oid opc : Z) (args : list byte)
    (chunks : list (list byte * list Z))
    (fd : Z) (wr : list (option error)) (tr : list syscall) :
  wire_ok oid opc args →
  Forall (λ c, c.1 ≠ []) chunks →
  List.concat (map fst chunks) = frame oid opc args →
  readMsg (mkState fd [] [] (map (λ c, RecvData c.1 c.2) chunks) wr tr) =
    (Val (mkMessage oid opc args (hd (-1) (List.concat (map snd chunks)))),
     mkState fd [] (tl (List.concat (map snd chunks))) [] wr tr)
  ∧ (readMsg (mkState fd [] (tl (List.concat (map snd chunks))) [] wr tr)).1 = Block.
Proof.
  intros Hok Hne Hsplit. split.
  - unfold readMsg. cbn [incoming inBuf pendingFds c_fd wr_results trace].
    rewrite (readMsg_loop_chunks oid opc args Hok chunks [] [] Hne Hsplit).
    reflexivity.
  - unfold readMsg. cbn [incoming inBuf pendingFds c_fd wr_results trace].
    rewrite readMsg_loop_empty. reflexivity.
Qed.

Lemma readMsg_fragmented_witness :
  readMsg (fresh_conn
    [RecvData (take 3 (send_event "text/plain")) [];
     RecvData (take 6 (drop 3 (send_event "text/plain"))) [12];
     RecvData (drop 9 (send_event "text/plain")) []]) =
    (Val (mkMessage idDCSource 0 (encodeString "text/plain") 12), fresh_conn [])
  ∧ (readMsg (fresh_conn [])).1 = Block.
Proof.
  apply (readMsg_fragmented idDCSource 0 (encodeString "text/plain")
           [(take 3 (send_event "text/plain"), []);
            (take 6 (drop 3 (send_event "text/plain")), [12]);
            (drop 9 (send_event "text/plain"), [])]
           3 [] []).
  - vm_compute. repeat split; discriminate.
  - repeat constructor; vm_compute; discriminate.
  - vm_compute. reflexivity.
Defined.

(** ** C5: the launcher without a Wayland session *)

(** C5. With [WAYLAND_DISPLAY] not set, [WriteMultiFormat html plain]
    makes exactly one outside call, the single-format clipboard write of
    [plain], and returns what that call returns; [html] plays no part and
    no process is started. *)
Theorem WriteMultiFormat_fallback (h : Clipboard.Host) (html plain : string) :
  Clipboard.WAYLAND_DISPLAY h = None →
  Clipboard.WriteMultiFormat h html plain =
    (Clipboard.WriteAll_result h plain, [Clipboard.CallWriteAll plain]).
Proof.
  intros Hunset. unfold Clipboard.WriteMultiFormat. rewrite Hunset. reflexivity.
Qed.

Lemma WriteMultiFormat_fallback_witness :
  Clipboard.WriteMultiFormat Clipboard.x11_host "<b>hi</b>" "hi" =
    (None, [Clipboard.CallWriteAll "hi"]).
Proof.
  apply (WriteMultiFormat_fallback Clipboard.x11_host "<b>hi</b>" "hi").
  reflexivity.
Defined.

(** ** C6: a required global is missing *)

(** C6. [Serve] has its connection; the messages [ms] arrive and then the
    [done] of the first sync, and among [ms] no [global] event announced
    [wl_seat], or none announced [zwlr_data_control_manager_v1]. Then
    [Serve] returns the error that names the missing interface, and after
    [get_registry] and [sync] it has written nothing to the socket: the
    trace goes on with the [Close] calls for received descriptors and ends
    with the [Close] of the socket. *)
Theorem Serve_missing_global (env : Env) (fuel : nat)
    (formats : gmap string (list byte)) (st st1 st2 : State)
    (ms : list message) (d : message) :
  connected env = Some st →
  read_n (length ms) st = Some (ms, st1) →
  forallb (λ m, negb (is_done idCallback1 m)) ms = true →
  readMsg st1 = (Val d, st2) →
  is_done idCallback1 d = true →
  last_name "wl_seat" ms = None
    ∨ last_name "zwlr_data_control_manager_v1" ms = None →
  next_writes_ok 2 st = true →
  (length ms < fuel)%nat →
  Serve env fuel formats =
    (Fail (missing_global ms),
     trace st ++ [SysWrite (c_fd st) get_registry_request;
                  SysWrite (c_fd st) (sync_request idCallback1)]
       ++ closes (ms ++ [d]) ++ [SysClose (c_fd st)]).
Proof.
  intros Hc Hn Hnd Hr Hd Hmiss Hw Hfuel.
  rewrite (Serve_connected _ _ _ _ Hc).
  assert (E : session env fuel formats st =
              (Fail (missing_global ms),
               with_io st2 (tl (tl (wr_results st)))
                 (trace st ++ [SysWrite (c_fd st) get_registry_request;
                               SysWrite (c_fd st) (sync_request idCallback1)]
                    ++ closes (ms ++ [d])))).
  { unfold session, handshake.
    unfold mbind at 1, M_bind at 1. unfold mbind at 1, M_bind at 1.
    rewrite (bootstrap_first_sync fuel st st1 st2 ms d Hn Hnd Hr Hd Hw Hfuel).
    destruct (fold_note_global ms) as [Hs Hm]. cbv zeta in Hs, Hm.
    unfold afterFirstSync, missing_global, return_err.
    destruct (last_name "wl_seat" ms) as [a|].
    - injection Hs as _ ->. cbn [negb].
      destruct Hmiss as [?|Hmiss]; [discriminate|]. rewrite Hmiss in Hm.
      injection Hm as _ ->. reflexivity.
    - injection Hs as _ ->. reflexivity. }
  unfold deferred_close. rewrite E. cbn [fst snd].
  unfold close, sys_close, log, with_io. cbn [fst snd trace c_fd].
  destruct (read_n_trace _ _ _ _ Hn) as [_ Hf].
  pose proof (readMsg_c_fd st1) as Hf2. rewrite Hr in Hf2. cbn [snd] in Hf2.
  rewrite Hf2, Hf, <- !app_assoc. reflexivity.
Qed.

Lemma Serve_missing_global_witness :
  Serve (peer_env plain_script) 20 offer_table =
    (Fail (Errorf "wayland: zwlr_data_control_manager_v1 not found (compositor may not support wlr-data-control)"),
     [SysWrite 3 get_registry_request; SysWrite 3 (sync_request idCallback1);
      SysClose 3]).
Proof.
  apply (Serve_missing_global (peer_env plain_script) 20 offer_table
           (fresh_conn plain_script)
           (fresh_conn [RecvData (done_event idCallback1) []])
           (fresh_conn [])
           [global_message 1 "wl_compositor" 5; global_message 7 "wl_seat" 8]
           (done_message idCallback1)).
  - reflexivity.
  - vm_compute. reflexivity.
  - reflexivity.
  - vm_compute. reflexivity.
  - reflexivity.
  - right. vm_compute. reflexivity.
  - reflexivity.
  - vm_compute. lia.
Defined.

(** ** C7: the two binds *)

(** C7. The bootstrap reads the messages [ms] and then the [done] of the
    first sync; the last [global] event among [ms] that announces
    [wl_seat] carries name [a], the last one that announces
    [zwlr_data_control_manager_v1] carries name [b]; the writes succeed.
    Then the bootstrap completes, and after [get_registry] and [sync] its
    only writes are two [bind] requests, for [a] and for [b]: whatever
    else was announced, and however often, causes no further request. *)
Theorem bootstrap_binds (fuel : nat) (st st1 st2 : State)
    (ms : list message) (d : message) (a b : Z) :
  read_n (length ms) st = Some (ms, st1) →
  forallb (λ m, negb (is_done idCallback1 m)) ms = true →
  readMsg st1 = (Val d, st2) →
  is_done idCallback1 d = true →
  last_name "wl_seat" ms = Some a →
  last_name "zwlr_data_control_manager_v1" ms = Some b →
  next_writes_ok 4 st = true →
  (length ms < fuel)%nat →
  let requests :=
    [SysWrite (c_fd st) get_registry_request;
     SysWrite (c_fd st) (sync_request idCallback1)]
    ++ closes (ms ++ [d])
    ++ [SysWrite (c_fd st) (bind_request a "wl_seat" 1 idSeat);
        SysWrite (c_fd st)
          (bind_request b "zwlr_data_control_manager_v1" 2 idDCManager)] in
  ∃ st3,
    bootstrap fuel st = (Val (), st3)
    ∧ trace st3 = trace st ++ requests
    ∧ omap bind_name requests = [a; b].
Proof.
  intros Hn Hnd Hr Hd Ha Hb Hw Hfuel requests.
  pose proof (last_name_range _ _ _ Ha) as Hra.
  pose proof (last_name_range _ _ _ Hb) as Hrb.
  destruct (next_writes_ok_2_of_4 st Hw) as [Hw2 Hw3].
  rewrite (bootstrap_first_sync fuel st st1 st2 ms d Hn Hnd Hr Hd Hw2 Hfuel).
  destruct (fold_note_global ms) as [Hs Hm]. cbv zeta in Hs, Hm.
  rewrite Ha in Hs. rewrite Hb in Hm.
  injection Hs as Hsn Hsf. injection Hm as Hmn Hmf.
  unfold afterFirstSync. rewrite Hsf, Hmf, Hsn, Hmn. cbn [negb].
  unfold concat. cbn [fold_left]. rewrite !app_nil_l, <- !app_assoc.
  match goal with |- context [with_io st2 ?wr ?tr] =>
    set (s3 := with_io st2 wr tr); specialize (Hw3 st2 tr); fold s3 in Hw3 end.
  assert (Hok1 : wire_ok idRegistry 0
            (encodeUint32 a ++ encodeString "wl_seat" ++ encodeUint32 1
               ++ encodeUint32 idSeat)) by solve_wire_ok.
  assert (Hok2 : wire_ok idRegistry 0
            (encodeUint32 b ++ encodeString "zwlr_data_control_manager_v1"
               ++ encodeUint32 2 ++ encodeUint32 idDCManager)) by solve_wire_ok.
  destruct (sendMsg_ok idRegistry 0 _ 1 s3 Hok1 Hw3) as [E1 Hw4].
  unfold mbind, M_bind. rewrite E1.
  destruct (sendMsg_ok idRegistry 0 _ 0 _ Hok2 Hw4) as [E2 _].
  rewrite E2. eexists. split; [reflexivity|].
  destruct (read_n_trace _ _ _ _ Hn) as [_ Hf].
  pose proof (readMsg_c_fd st1) as Hf2. rewrite Hr in Hf2. cbn [snd] in Hf2.
  split.
  - unfold s3, with_io, requests, bind_request.
    cbn [c_fd inBuf pendingFds incoming wr_results trace].
    rewrite Hf2, Hf, <- !app_assoc. reflexivity.
  - unfold requests. rewrite !omap_app, omap_bind_name_closes.
    cbn [omap list_omap app].
    rewrite (bind_name_bind_request _ _ _ _ _ Hok1 Hra).
    rewrite (bind_name_bind_request _ _ _ _ _ Hok2 Hrb).
    reflexivity.
Qed.

Lemma bootstrap_binds_witness :
  ∃ st3,
    bootstrap 20 (fresh_conn bootstrap_script) = (Val (), st3)
    ∧ trace st3 =
        [SysWrite 3 get_registry_request; SysWrite 3 (sync_request idCallback1);
         SysWrite 3 (bind_request 7 "wl_seat" 1 idSeat);
         SysWrite 3 (bind_request 9 "zwlr_data_control_manager_v1" 2 idDCManager)]
    ∧ omap bind_name
        [SysWrite 3 get_registry_request; SysWrite 3 (sync_request idCallback1);
         SysWrite 3 (bind_request 7 "wl_seat" 1 idSeat);
         SysWrite 3 (bind_request 9 "zwlr_data_control_manager_v1" 2 idDCManager)]
      = [7; 9].
Proof.
  apply (bootstrap_binds 20 (fresh_conn bootstrap_script)
           (fresh_conn [RecvData (done_event idCallback1) []])
           (fresh_conn [])
           [global_message 7 "wl_seat" 8;
            global_message 9 "zwlr_data_control_manager_v1" 2]
           (done_message idCallback1) 7 9).
  - vm_compute. reflexivity.
  - reflexivity.
  - vm_compute. reflexivity.
  - reflexivity.
  - vm_compute. reflexivity.
  - vm_compute. reflexivity.
  - reflexivity.
  - vm_compute. lia.
Defined.

(** The same bootstrap with an unrelated global and the seat announced
    twice: the later name, 7, is the one bound. *)
Example bootstrap_busy_script :
  omap bind_name (trace (bootstrap 20 (fresh_conn busy_script)).2) = [7; 9].
Proof. vm_compute. reflexivity. Qed.

(** ** C8: what ends the event loop *)

(** C8, as amended. Once a run of [Serve] has entered the event loop:
    (a) a transport error, an orderly close by the peer included, makes
    [Serve] return [nil], its last system call closing the socket;
    (b) an event on the data source that is neither [send] nor [cancelled]
    does not end the loop: the loop goes round again on the connection as
    [readMsg] left it. *)
Theorem Serve_normal_termination (env : Env) (fuel : nat)
    (formats : gmap string (list byte)) (st : State) :
  serving env fuel formats = Some st →
  (∀ ms st1 st2 e,
     read_n (length ms) st = Some (ms, st1) →
     forallb (λ m, negb (is_cancelled m)) ms = true →
     readMsg st1 = (Fail e, st2) →
     (length ms < fuel)%nat →
     ∃ tr, Serve env fuel formats = (Val (), tr ++ [SysClose (c_fd st)]))
  ∧
  (∀ ms st1 st2 m,
     read_n (length ms) st = Some (ms, st1) →
     forallb (λ m, negb (is_cancelled m)) ms = true →
     readMsg st1 = (Val m, st2) →
     objectID m = idDCSource → opcode m ≠ 0 → opcode m ≠ 1 →
     (length ms < fuel)%nat →
     ∃ st3,
       eventLoop fuel formats st = eventLoop (fuel - length ms - 1) formats st3
       ∧ inBuf st3 = inBuf st2 ∧ pendingFds st3 = pendingFds st2
       ∧ incoming st3 = incoming st2).
Proof.
  intros Hs. split.
  - intros ms st1 st2 e Hn Hms Hr Hfuel.
    rewrite (Serve_serving _ _ _ _ Hs).
    assert (E : eventLoop fuel formats st =
                (Val (), logged st2 (flat_map (answer formats) ms))).
    { rewrite (eventLoop_after formats fuel st st1 ms Hn Hms Hfuel).
      unfold eventLoop. cbn [loop]. unfold mbind, M_bind.
      assert (Hr' : readMsg (logged st1 (flat_map (answer formats) ms)) =
                    (Fail e, logged st2 (flat_map (answer formats) ms))).
      { rewrite readMsg_logged, Hr. reflexivity. }
      rewrite (serveRequests_error formats _ _ _ Hr'). reflexivity. }
    unfold deferred_close. rewrite E. cbn [fst snd].
    unfold close, sys_close, log, logged. cbn [fst snd trace c_fd].
    destruct (read_n_trace _ _ _ _ Hn) as [Ht Hf].
    pose proof (readMsg_c_fd st1) as Hf2. rewrite Hr in Hf2. cbn [snd] in Hf2.
    rewrite Hf2, Hf. eexists. reflexivity.
  - intros ms st1 st2 m Hn Hms Hr Ho Hc0 Hc1 Hfuel.
    rewrite (eventLoop_after formats fuel st st1 ms Hn Hms Hfuel).
    unfold eventLoop. cbn [loop]. unfold mbind, M_bind.
    assert (Hr' : readMsg (logged st1 (flat_map (answer formats) ms)) =
                  (Val m, logged st2 (flat_map (answer formats) ms))).
    { rewrite readMsg_logged, Hr. reflexivity. }
    rewrite (serveRequests_message formats _ _ _ Hr').
    unfold is_cancelled. replace (opcode m =? 1) with false by (symmetry; lia).
    rewrite andb_false_r.
    eexists. split; [reflexivity|]. split; [|split]; reflexivity.
Qed.

Lemma Serve_normal_termination_witness :
  (∃ tr, Serve (peer_env (handshake_script ++ [RecvData [] []])) 20 offer_table
         = (Val (), tr ++ [SysClose 3]))
  ∧ (∃ st3,
       eventLoop 20 offer_table (serving_state [other_event]) =
         eventLoop 19 offer_table st3
       ∧ inBuf st3 = [] ∧ pendingFds st3 = [] ∧ incoming st3 = []).
Proof.
  split.
  - apply (proj1 (Serve_normal_termination
             (peer_env (handshake_script ++ [RecvData [] []])) 20 offer_table
             (serving_state [RecvData [] []]) ltac:(vm_compute; reflexivity))
             [] (serving_state [RecvData [] []])
             (readMsg (serving_state [RecvData [] []])).2
             (Errorf "wayland: connection closed")).
    + reflexivity.
    + reflexivity.
    + vm_compute. reflexivity.
    + vm_compute. lia.
  - apply (proj2 (Serve_normal_termination
             (peer_env (handshake_script ++ [other_event])) 20 offer_table
             (serving_state [other_event]) ltac:(vm_compute; reflexivity))
             [] (serving_state [other_event])
             (readMsg (serving_state [other_event])).2
             (mkMessage idDCSource 2 [] 11)).
    + reflexivity.
    + reflexivity.
    + vm_compute. reflexivity.
    + reflexivity.
    + discriminate.
    + discriminate.
    + vm_compute. lia.
Defined.

(** C8 as stated fails: after an event on the data source that is neither
    [send] nor [cancelled], [Serve] has not returned; it answers the paste
    request that follows and waits for more. *)
Lemma Serve_other_event_goes_on :
  (Serve (peer_env (handshake_script ++
            [other_event; RecvData (send_event "text/plain") [12]]))
         20 offer_table).1 = Block
  ∧ calls_on 12
      (Serve (peer_env (handshake_script ++
                [other_event; RecvData (send_event "text/plain") [12]]))
             20 offer_table).2
    = [SysWrite 12 (list_byte_of_string "hello"); SysClose 12].
Proof. split; vm_compute; reflexivity. Qed.

(** ** C9: descriptors are disposed of *)

(** C9 fails on the code. An event on the data source with an opcode the
    event loop does not handle arrives with descriptor 11; [Serve] runs on
    and returns on the [cancelled] event that follows, and no system call
    ever touched descriptor 11: it was neither written to nor closed. *)
Theorem Serve_unhandled_opcode_leaks :
  (Serve (peer_env (handshake_script ++ [other_event; RecvData cancelled_event []]))
         20 offer_table).1 = Val ()
  ∧ calls_on 11
      (Serve (peer_env (handshake_script ++ [other_event; RecvData cancelled_event []]))
             20 offer_table).2
    = []
  ∧ ∃ st1,
      readMsg (fresh_conn [other_event]) = (Val (mkMessage idDCSource 2 [] 11), st1)
      ∧ serveRequests offer_table () (fresh_conn [other_event]) = (Val (inl ()), st1)
      ∧ pendingFds st1 = [] ∧ trace st1 = [].
Proof.
  split; [vm_compute; reflexivity|]. split; [vm_compute; reflexivity|].
  eexists. split; [vm_compute; reflexivity|].
  split; [vm_compute; reflexivity|]. split; reflexivity.
Qed.

(** ** C10: a declared length of zero *)

(** C10, as amended. A buffer of at least four bytes whose length word is
    0 decodes to the empty string, the buffer without those four bytes and
    no error; and [encodeString] writes a non-zero length word for every
    string of fewer than [2^32 - 1] bytes. *)
Theorem decodeString_zero_length (data : list byte) :
  4 <= len data →
  Uint32 (slice_to 4 data) = 0 →
  decodeString data = (EmptyString, slice_from 4 data, None)
  ∧ len (slice_from 4 data) = len data - 4
  ∧ ∀ s : string, len (list_byte_of_string s) + 1 < 2 ^ 32 →
      Uint32 (slice_to 4 (encodeString s)) ≠ 0.
Proof.
  intros Hlen Hz. split; [|split].
  - apply decodeString_length_0; assumption.
  - unfold slice_from, len in *. rewrite length_drop. lia.
  - intros s Hs. rewrite encodeString_length_word.
    pose proof (len_nonneg (list_byte_of_string s)).
    rewrite uint32_small by lia. lia.
Qed.

Lemma decodeString_zero_length_witness :
  decodeString [x00; x00; x00; x00; x2a; x07] = (EmptyString, [x2a; x07], None).
Proof.
  apply (decodeString_zero_length [x00; x00; x00; x00; x2a; x07]).
  - vm_compute. discriminate.
  - reflexivity.
Defined.

(** C10 as stated says that [encodeString] never writes a length word of
    0; for the string of [2^32 - 1] bytes it does. *)
Lemma encodeString_long_length_word :
  Uint32 (slice_to 4 (encodeString long_string)) = 0.
Proof.
  rewrite encodeString_length_word, len_list_byte_of_string_long.
  reflexivity.
Qed.

(** * Further properties of the code *)

(** ** The codec *)

Lemma byte_of_Z_of_byte b : byte_of_Z (Z_of_byte b) = b.
Proof.
  unfold byte_of_Z, Z_of_byte.
  pose proof (Byte.to_N_bounded b).
  rewrite Z.mod_small by lia.
  rewrite N2Z.id, Byte.of_to_N. reflexivity.
Qed.

Lemma byte_of_Z_mod v : byte_of_Z (v mod 256) = byte_of_Z v.
Proof. unfold byte_of_Z. rewrite Z.mod_mod by lia. reflexivity. Qed.

Lemma byte_of_Z_eq v b : v mod 256 = Z_of_byte b → byte_of_Z v = b.
Proof.
  intros H. rewrite <- byte_of_Z_mod, H. apply byte_of_Z_of_byte.
Qed.

Lemma Uint32_byte (b0 b1 b2 b3 : byte) k :
  (k < 4)%nat →
  (Uint32 [b0; b1; b2; b3] ≫ (8 * Z.of_nat k)) mod 256 =
    Z_of_byte (nth k [b0; b1; b2; b3] x00).
Proof.
  intros Hk. cbn [Uint32].
  pose proof (Z_of_byte_range b0). pose proof (Z_of_byte_range b1).
  pose proof (Z_of_byte_range b2). pose proof (Z_of_byte_range b3).
  rewrite <- (Z.mod_small (Z_of_byte b0) (2 ^ 8)) by lia.
  rewrite <- (Z.mod_small (Z_of_byte b1) (2 ^ 8)) by lia.
  rewrite <- (Z.mod_small (Z_of_byte b2) (2 ^ 8)) by lia.
  rewrite <- (Z.mod_small (Z_of_byte b3) (2 ^ 8)) by lia.
  change 256 with (2 ^ 8).
  destruct k as [|[|[|[|k]]]]; [| | | |lia]; cbn [nth];
    apply Z.bits_inj'; intros n Hn;
    rewrite !Z.testbit_mod_pow2 by lia;
    rewrite Z.shiftr_spec by lia;
    rewrite !Z.lor_spec, !Z.shiftl_spec by lia;
    rewrite !Z.testbit_mod_pow2 by lia;
    destruct (Z.ltb_spec n 8); cbn [andb]; try reflexivity;
    repeat match goal with
    | |- context [Z.testbit ?a ?i] =>
        lazymatch i with
        | n => fail
        | _ => first [rewrite (Z.testbit_neg_r a i) by lia
                     |replace i with n by lia]
        end
    | |- context [?a <? ?b] => destruct (Z.ltb_spec a b); try lia
    end;
    cbn [andb orb]; rewrite ?orb_false_r, ?andb_true_l; try reflexivity;
    symmetry;
    match goal with
    | |- Z.testbit ?a n = false =>
        rewrite <- (Z.mod_small a (2 ^ 8)) by lia;
        rewrite Z.testbit_mod_pow2 by lia;
        destruct (Z.ltb_spec n 8); [lia|reflexivity]
    end.
Qed.

(** X1. Reading back the four bytes of [encodeUint32 v] gives [v] reduced
    to 32 bits, so every [v] in [[0, 2^32)] comes back unchanged. *)
Theorem Uint32_encodeUint32 (v : Z) :
  len (encodeUint32 v) = 4 ∧ Uint32 (encodeUint32 v) = v mod 2 ^ 32.
Proof.
  split; [reflexivity|].
  rewrite encodeUint32_eq. apply Uint32_le_bytes32_exact.
Qed.

Lemma le_bytes32_Uint32 (b : list byte) :
  len b = 4 → encodeUint32 (Uint32 b) = b.
Proof.
  intros Hlen.
  destruct b as [|b0 [|b1 [|b2 [|b3 [|b4 b]]]]]; try (cbv in Hlen; discriminate).
  2: { unfold len in Hlen. cbn [length] in Hlen. lia. }
  rewrite encodeUint32_eq. unfold le_bytes32.
  pose proof (Uint32_byte b0 b1 b2 b3 0 ltac:(lia)) as H0.
  pose proof (Uint32_byte b0 b1 b2 b3 1 ltac:(lia)) as H1.
  pose proof (Uint32_byte b0 b1 b2 b3 2 ltac:(lia)) as H2.
  pose proof (Uint32_byte b0 b1 b2 b3 3 ltac:(lia)) as H3.
  cbn [nth] in H0, H1, H2, H3.
  change (8 * Z.of_nat 0) with 0 in H0. rewrite Z.shiftr_0_r in H0.
  change (8 * Z.of_nat 1) with 8 in H1.
  change (8 * Z.of_nat 2) with 16 in H2.
  change (8 * Z.of_nat 3) with 24 in H3.
  rewrite (byte_of_Z_eq _ _ H0), (byte_of_Z_eq _ _ H1),
    (byte_of_Z_eq _ _ H2), (byte_of_Z_eq _ _ H3).
  reflexivity.
Qed.

(** X2. Conversely, encoding the number read from four bytes gives those
    four bytes back: the two conversions are inverse to each other. *)
Theorem encodeUint32_Uint32 (b : list byte) :
  len b = 4 → encodeUint32 (Uint32 b) = b.
Proof. apply le_bytes32_Uint32. Qed.

Lemma encodeUint32_Uint32_witness :
  encodeUint32 (Uint32 [x2a; xff; x00; x80]) = [x2a; xff; x00; x80].
Proof. apply (encodeUint32_Uint32 [x2a; xff; x00; x80]). reflexivity. Defined.

(** X3. The layout [encodeString] produces: the length word (string length
    plus one, reduced to 32 bits), the bytes of the string, then between
    one and four zero bytes, so that the whole is a multiple of four bytes
    long. *)
Theorem encodeString_layout (s : string) :
  ∃ zeros : Z,
    1 <= zeros <= 4
    ∧ encodeString s =
        encodeUint32 (uint32 (len (list_byte_of_string s) + 1))
          ++ list_byte_of_string s ++ make zeros
    ∧ len (encodeString s) = 4 + len (list_byte_of_string s) + zeros
    ∧ len (encodeString s) mod 4 = 0.
Proof.
  set (n := len (list_byte_of_string s) + 1).
  pose proof (len_nonneg (list_byte_of_string s)) as Hs.
  pose proof (padded_bounds n) as Hp.
  exists (Z.ldiff (n + 3) 3 - n + 1).
  split; [lia|]. split; [|split].
  - rewrite encodeString_eq. fold n. cbv zeta.
    change (encodeUint32 (uint32 n)) with (le_bytes32 (uint32 n)).
    do 2 f_equal. unfold make.
    replace (Z.to_nat (Z.ldiff (n + 3) 3 - n + 1))
      with (S (Z.to_nat (Z.ldiff (n + 3) 3 - n))) by lia.
    reflexivity.
  - rewrite len_encodeString. fold n. lia.
  - rewrite len_encodeString. fold n. rewrite padded_spec.
    replace (4 + 4 * ((n + 3) / 4)) with ((1 + (n + 3) / 4) * 4) by lia.
    apply Z.mod_mul. lia.
Qed.

(** X4. What [decodeString] accepts: after a length word [n > 0] it takes
    the next [n - 1] bytes as the string, whatever they are, and skips the
    bytes up to the next multiple of four without looking at them: neither
    the terminator nor the padding has to be zero. *)
Theorem decodeString_layout (n : Z) (body skipped rest : list byte) :
  0 < n < 2 ^ 32 →
  len body = n - 1 →
  len body + len skipped = Z.ldiff (n + 3) 3 →
  decodeString (encodeUint32 n ++ body ++ skipped ++ rest) =
    (string_of_list_byte body, rest, None).
Proof.
  intros Hn Hb Hk.
  pose proof (len_nonneg rest) as Hr. pose proof (len_nonneg skipped) as Hsk.
  unfold decodeString. change (encodeUint32 n) with (le_bytes32 n).
  rewrite !len_app, len_le_bytes32.
  destruct (Z.ltb_spec (4 + (len body + (len skipped + len rest))) 4); [lia|].
  unfold slice_to, slice_from. change (Z.to_nat 4) with 4%nat.
  change (take 4 (le_bytes32 n ++ ?l)) with (le_bytes32 n).
  change (drop 4 (le_bytes32 n ++ ?l)) with l.
  rewrite Uint32_le_bytes32_exact, uint32_small by lia.
  destruct (Z.eqb_spec n 0); [lia|].
  rewrite !len_app.
  destruct (Z.ltb_spec (len body + (len skipped + len rest)) (Z.ldiff (n + 3) 3)); [lia|].
  do 2 f_equal.
  - replace (Z.to_nat (n - 1)) with (length body) by (unfold len in *; lia).
    rewrite take_app_length. reflexivity.
  - rewrite app_assoc. rewrite drop_app_length'; [reflexivity|].
    rewrite length_app. unfold len in *. lia.
Qed.

Lemma decodeString_layout_witness :
  decodeString (encodeUint32 3 ++ [x68; x69] ++ [xff; xee] ++ [x01]) =
    ("hi"%string, [x01], None).
Proof.
  apply (decodeString_layout 3 [x68; x69] [xff; xee] [x01]).
  - lia.
  - reflexivity.
  - reflexivity.
Defined.

(** X5. When [decodeString] fails: exactly when fewer than four bytes are
    there for the length word, or the length word is not 0 and fewer bytes
    follow it than the length rounded up to a multiple of four. *)
Theorem decodeString_fails_iff (data : list byte) :
  (decodeString data).2 ≠ None ↔
    len data < 4
    ∨ (Uint32 (slice_to 4 data) ≠ 0
       ∧ len data - 4 < Z.ldiff (Uint32 (slice_to 4 data) + 3) 3).
Proof.
  unfold decodeString.
  destruct (Z.ltb_spec (len data) 4) as [Hshort|Hlong].
  - cbn. split; [intros _; left; exact Hshort|intros _; discriminate].
  - assert (Hd : len (slice_from 4 data) = len data - 4).
    { unfold slice_from, len in *. rewrite length_drop. lia. }
    destruct (Z.eqb_spec (Uint32 (slice_to 4 data)) 0) as [Hz|Hnz].
    + cbn. split; [congruence|]. intros [?|[? _]]; [lia|congruence].
    + rewrite Hd.
      destruct (Z.ltb_spec (len data - 4)
                  (Z.ldiff (Uint32 (slice_to 4 data) + 3) 3)); cbn.
      * split; [intros _; right; split; assumption|intros _; discriminate].
      * split; [congruence|]. intros [?|[_ ?]]; lia.
Qed.

(** X6. [concat] puts the slices one after the other, in order. *)
Theorem concat_flatten (slices : list (list byte)) :
  concat slices = List.concat slices
  ∧ len (concat slices) = fold_right (λ s n, len s + n) 0 slices.
Proof.
  assert (H : ∀ acc, fold_left (λ result s, result ++ s) slices acc
                     = acc ++ List.concat slices).
  { induction slices as [|s slices IH]; intros acc; cbn.
    - rewrite app_nil_r. reflexivity.
    - rewrite IH, <- app_assoc. reflexivity. }
  assert (E : concat slices = List.concat slices) by apply (H []).
  split; [exact E|]. rewrite E. clear.
  induction slices as [|s slices IH]; [reflexivity|].
  cbn [List.concat fold_right]. rewrite len_app, IH. reflexivity.
Qed.

Lemma advertises_global (name version fd : Z) (iface other : string) :
  0 <= name < 2 ^ 32 →
  len (list_byte_of_string iface) + 1 < 2 ^ 32 →
  advertises other
    (mkMessage idRegistry 0
       (encodeUint32 name ++ encodeString iface ++ encodeUint32 version) fd) =
    if String.eqb iface other then Some name else None.
Proof.
  intros Hname Hlen. unfold advertises.
  cbn [objectID opcode payload msg_fd].
  change ((idRegistry =? idRegistry) && (0 =? 0)) with true. cbn [andb].
  change (encodeUint32 name) with (le_bytes32 name).
  rewrite len_app, len_le_bytes32.
  pose proof (len_nonneg (encodeString iface ++ encodeUint32 version)).
  destruct (Z.leb_spec 4 (4 + len (encodeString iface ++ encodeUint32 version)));
    [|lia].
  unfold slice_from, slice_to. change (Z.to_nat 4) with 4%nat.
  change (drop 4 (le_bytes32 name ++ ?l)) with l.
  change (take 4 (le_bytes32 name ++ ?l)) with (le_bytes32 name).
  rewrite decodeString_encodeString_app by exact Hlen.
  rewrite Uint32_le_bytes32_exact, uint32_small by lia. reflexivity.
Qed.

(** X7. One round of the bootstrap loop on a [wl_registry.global] event
    that is laid out as "name, interface string, version": the name is
    recorded for [wl_seat] and for [zwlr_data_control_manager_v1], each in
    its own variable with its flag set, and the variables stay as they
    were for every other interface. The version is not looked at, a
    descriptor that came with the event is closed, and the loop goes on. *)
Theorem collectGlobals_global (name version fd : Z) (iface : string)
    (g : globals) (st st1 : State) :
  0 <= name < 2 ^ 32 →
  len (list_byte_of_string iface) + 1 < 2 ^ 32 →
  readMsg st =
    (Val (mkMessage idRegistry 0
            (encodeUint32 name ++ encodeString iface ++ encodeUint32 version) fd),
     st1) →
  collectGlobals g st =
    (Val (inl (if String.eqb iface "wl_seat" then
                 mkGlobals name (dcManagerName g) true (dcManagerFound g)
               else if String.eqb iface "zwlr_data_control_manager_v1" then
                 mkGlobals (seatName g) name (seatFound g) true
               else g)),
     logged st1 (if 0 <=? fd then [SysClose fd] else [])).
Proof.
  intros Hname Hlen Hr.
  rewrite (collectGlobals_message g st _ st1 Hr).
  unfold note_global. rewrite !advertises_global by assumption.
  unfold is_done, closes. cbn [objectID opcode msg_fd flat_map].
  change ((idRegistry =? idCallback1) && (0 =? 0)) with false. cbn iota.
  rewrite app_nil_r.
  destruct (String.eqb iface "wl_seat"); [reflexivity|].
  destruct (String.eqb iface "zwlr_data_control_manager_v1"); reflexivity.
Qed.

Lemma collectGlobals_global_witness :
  collectGlobals no_globals
    (fresh_conn [RecvData (global_event 7 "wl_seat" 8) [12]]) =
    (Val (inl (if String.eqb "wl_seat" "wl_seat" then
                 mkGlobals 7 (dcManagerName no_globals) true
                   (dcManagerFound no_globals)
               else if String.eqb "wl_seat" "zwlr_data_control_manager_v1" then
                 mkGlobals (seatName no_globals) 7 (seatFound no_globals) true
               else no_globals)),
     logged (fresh_conn []) (if 0 <=? 12 then [SysClose 12] else [])).
Proof.
  apply (collectGlobals_global 7 8 12 "wl_seat" no_globals
           (fresh_conn [RecvData (global_event 7 "wl_seat" 8) [12]])
           (fresh_conn [])).
  - lia.
  - vm_compute. reflexivity.
  - vm_compute. reflexivity.
Defined.

(** ** The transport *)

Lemma len_copy_at dst off src :
  0 <= off <= len dst → len (copy_at dst off src) = len dst.
Proof.
  intros Hoff. unfold copy_at, len in *.
  rewrite !length_app, !length_take, length_drop. lia.
Qed.

Lemma copy_at_make_0_cut n src :
  0 <= n <= len src → copy_at (make n) 0 src = slice_to n src.
Proof.
  intros Hn. unfold copy_at, make, slice_to, len in *.
  rewrite length_replicate. change (Z.to_nat 0) with 0%nat.
  rewrite Nat.sub_0_r, Nat.min_l by lia. cbn [take app].
  rewrite drop_ge by (rewrite length_replicate; lia).
  apply app_nil_r.
Qed.

(** X8. What [sendMsg] writes, whatever the arguments: with
    [size = uint16 (8 + len args)], it panics before any write when
    [size < 8]; otherwise it makes one write of exactly [size] bytes, the
    header followed by the first [size - 8] bytes of the arguments. So
    arguments that do not fit the 16-bit size are cut off, not refused. *)
Theorem sendMsg_written (oid opc : Z) (args : list byte) :
  let size := uint16 (8 + len args) in
  sendMsg oid opc args =
    (if size <? 8 then λ st, (Panic, st)
     else sock_write
            (le_bytes32 oid
               ++ le_bytes32 (Z.lor (uint32 opc) (uint32 (uint32 size ≪ 16)))
               ++ slice_to (size - 8) args))
  ∧ (8 <= size →
     len (le_bytes32 oid
            ++ le_bytes32 (Z.lor (uint32 opc) (uint32 (uint32 size ≪ 16)))
            ++ slice_to (size - 8) args) = size).
Proof.
  intros size.
  pose proof (len_nonneg args) as Ha.
  assert (Hsz : 0 <= size <= 8 + len args).
  { unfold size, uint16. pose proof (Z.mod_pos_bound (8 + len args) (2 ^ 16) ltac:(lia)).
    pose proof (Z.mod_le (8 + len args) (2 ^ 16) ltac:(lia) ltac:(lia)). lia. }
  split.
  - unfold sendMsg. fold size.
    destruct (Z.ltb_spec size 8); [reflexivity|].
    f_equal. unfold PutUint32.
    rewrite copy_at_make_0 by (rewrite len_le_bytes32; lia).
    rewrite len_le_bytes32.
    set (w := Z.lor (uint32 opc) (uint32 (uint32 size ≪ 16))).
    pose proof (copy_at_app (le_bytes32 oid) (make (size - 4)) (le_bytes32 w)) as E.
    rewrite len_le_bytes32 in E. rewrite E. clear E.
    rewrite copy_at_make_0 by (rewrite len_le_bytes32; lia).
    rewrite len_le_bytes32.
    pose proof (copy_at_app (le_bytes32 oid ++ le_bytes32 w)
                  (make (size - 4 - 4)) args) as E.
    change (len (le_bytes32 oid ++ le_bytes32 w)) with 8 in E.
    rewrite <- app_assoc in E. rewrite E. clear E.
    replace (size - 4 - 4) with (size - 8) by lia.
    rewrite copy_at_make_0_cut by lia. rewrite <- app_assoc. reflexivity.
  - intros H8. rewrite !len_app, !len_le_bytes32.
    unfold slice_to, len in *. rewrite length_take. lia.
Qed.

(** An argument list of 65540 bytes: the size wraps to 12 and only four
    of the bytes are sent. *)
Example sendMsg_oversized :
  trace (sendMsg idDCSource 0 (make 65540) (fresh_conn [])).2 =
    [SysWrite 3 (frame idDCSource 0 (make 4))].
Proof. vm_compute. reflexivity. Qed.

(** X9. A request written by [sendMsg], when its bytes are what the other
    side receives, is read by [readMsg] as the same object ID, opcode and
    arguments. *)
Theorem sendMsg_readMsg (oid opc : Z) (args : list byte) (st : State)
    (fd : Z) (wr : list (option error)) (tr : list syscall) :
  wire_ok oid opc args →
  ∃ buf,
    trace (sendMsg oid opc args st).2 = trace st ++ [SysWrite (c_fd st) buf]
    ∧ readMsg (mkState fd [] [] [RecvData buf []] wr tr) =
        (Val (mkMessage oid opc args (-1)), mkState fd [] [] [] wr tr).
Proof.
  intros Hok. exists (frame oid opc args). split.
  - rewrite (sendMsg_frame _ _ _ Hok). unfold sock_write.
    destruct (wr_results st) as [|[e|] rs]; reflexivity.
  - unfold readMsg. cbn [incoming inBuf pendingFds c_fd wr_results trace].
    pose proof (readMsg_loop_chunks oid opc args Hok [(frame oid opc args, [])] [] []) as H.
    cbn [map fst snd List.concat app hd tl] in H.
    rewrite H; [reflexivity| |apply app_nil_r].
    constructor; [|constructor]. cbn [fst]. intros E.
    apply (f_equal len) in E. rewrite len_frame in E.
    pose proof (len_nonneg args). unfold len in *. cbn [length] in E. lia.
Qed.

Lemma sendMsg_readMsg_witness :
  ∃ buf,
    trace (sendMsg idDCManager 1
             (concat [encodeUint32 idDCDevice; encodeUint32 idSeat])
             (fresh_conn [])).2 = [] ++ [SysWrite 3 buf]
    ∧ readMsg (mkState 4 [] [] [RecvData buf []] [] []) =
        (Val (mkMessage idDCManager 1
                (concat [encodeUint32 idDCDevice; encodeUint32 idSeat]) (-1)),
         mkState 4 [] [] [] [] []).
Proof.
  apply (sendMsg_readMsg idDCManager 1
           (concat [encodeUint32 idDCDevice; encodeUint32 idSeat])
           (fresh_conn []) 4 [] []).
  solve_wire_ok.
Defined.

Lemma header_word_inverse w :
  0 <= w < 2 ^ 32 →
  Z.lor (uint16 (Z.land w 65535)) ((w ≫ 16) ≪ 16) = w
  ∧ 0 <= uint16 (Z.land w 65535) < 2 ^ 16 ∧ 0 <= w ≫ 16 < 2 ^ 16.
Proof.
  intros Hw. unfold uint16.
  change 65535 with (Z.ones 16). rewrite Z.land_ones by lia.
  rewrite Z.mod_mod by lia.
  rewrite <- Z.ldiff_ones_r by lia. rewrite <- Z.land_ones by lia.
  split; [|split].
  - rewrite Z.lor_comm. apply Z.lor_ldiff_and.
  - rewrite Z.land_ones by lia. apply Z.mod_pos_bound. lia.
  - rewrite Z.shiftr_div_pow2 by lia. split.
    + apply Z.div_pos; lia.
    + apply Z.div_lt_upper_bound; lia.
Qed.

Lemma buffered_inverse (buf rest args : list byte) (oid opc : Z) :
  buffered buf = Some (oid, opc, args, rest) →
  buf = frame oid opc args ++ rest ∧ wire_ok oid opc args.
Proof.
  unfold buffered.
  destruct (Z.leb_spec 8 (len buf)) as [H8|]; [|discriminate].
  set (w := Uint32 (slice 4 8 buf)).
  pose proof (Uint32_range (slice 4 8 buf)) as Hw. fold w in Hw.
  destruct (header_word_inverse w Hw) as (Hword & Hopc & Hsize).
  destruct (Z.leb_spec 8 (w ≫ 16)) as [Hs8|]; [|discriminate].
  destruct (Z.leb_spec (w ≫ 16) (len buf)) as [Hsl|]; [|discriminate].
  cbn [andb]. intros [= <- <- <- <-].
  assert (Hpl : copy_at (make (w ≫ 16 - 8)) 0 (slice 8 (w ≫ 16) buf)
                = slice 8 (w ≫ 16) buf).
  { assert (Hl : len (slice 8 (w ≫ 16) buf) = w ≫ 16 - 8).
    { unfold slice, len in *. rewrite length_take, length_drop. lia. }
    rewrite copy_at_make_0 by lia. rewrite Hl, Z.sub_diag.
    change (make 0) with (@nil byte). apply app_nil_r. }
  rewrite Hpl.
  assert (Hl : len (slice 8 (w ≫ 16) buf) = w ≫ 16 - 8).
  { unfold slice, len in *. rewrite length_take, length_drop. lia. }
  split.
  - unfold frame. rewrite Hl.
    replace (8 + (w ≫ 16 - 8)) with (w ≫ 16) by lia.
    rewrite Hword.
    change (le_bytes32 ?v) with (encodeUint32 v).
    rewrite (le_bytes32_Uint32 (slice 0 4 buf))
      by (unfold slice, len in *; rewrite length_take, length_drop; lia).
    unfold w at 1.
    rewrite (le_bytes32_Uint32 (slice 4 8 buf))
      by (unfold slice, len in *; rewrite length_take, length_drop; lia).
    unfold slice, slice_from.
    change (Z.to_nat (4 - 0)) with 4%nat. change (Z.to_nat 0) with 0%nat.
    change (Z.to_nat (8 - 4)) with 4%nat. change (Z.to_nat 4) with 4%nat.
    change (Z.to_nat 8) with 8%nat. change (drop 0 buf) with buf.
    replace (Z.to_nat (w ≫ 16 - 8)) with (Z.to_nat (w ≫ 16) - 8)%nat by lia.
    rewrite !app_assoc, take_take_drop, take_take_drop.
    match goal with
    | |- _ = take ?k buf ++ _ => replace k with (Z.to_nat (w ≫ 16)) by lia
    end.
    symmetry. apply take_drop.
  - repeat split; try lia; try apply Uint32_range.
Qed.

(** X10. Reading a message is the inverse of framing it: when [readMsg]'s
    test finds a complete message at the front of the buffer, the buffer
    is exactly the frame of that message followed by the rest it keeps, and
    the fields of the message fit their widths. No byte is dropped or
    changed. *)
Theorem buffered_frame_inverse (buf rest args : list byte) (oid opc : Z) :
  buffered buf = Some (oid, opc, args, rest) →
  buf = frame oid opc args ++ rest ∧ wire_ok oid opc args.
Proof. apply buffered_inverse. Qed.

Lemma buffered_frame_inverse_witness :
  [x06; x00; x00; x00; x01; x00; x08; x00; x2a] = frame 6 1 [] ++ [x2a]
  ∧ wire_ok 6 1 [].
Proof.
  apply (buffered_frame_inverse [x06; x00; x00; x00; x01; x00; x08; x00; x2a]
           [x2a] [] 6 1).
  vm_compute. reflexivity.
Defined.

(** What a successful [readMsg] has taken from the script. *)
Lemma readMsg_loop_val : ∀ q buf fds m buf' fds' q',
  readMsg_loop q buf fds = (Val m, (buf', fds', q')) →
  ∃ k,
    q' = drop k q
    ∧ all_data (take k q) = true
    ∧ buffered (buf ++ data_of (take k q)) =
        Some (objectID m, opcode m, payload m, buf')
    ∧ msg_fd m = hd (-1) (fds ++ rights_of (take k q))
    ∧ fds' = tl (fds ++ rights_of (take k q)).
Proof.
  assert (Hnow : ∀ q buf fds m buf' fds' q' oid opc pl rest,
            buffered buf = Some (oid, opc, pl, rest) →
            match fds with
            | fd :: fds0 => (Val (mkMessage oid opc pl fd), (rest, fds0, q))
            | [] => (Val (mkMessage oid opc pl (-1)), (rest, fds, q))
            end = (Val m, (buf', fds', q')) →
            q' = drop 0 q
            ∧ all_data (take 0 q) = true
            ∧ buffered (buf ++ data_of (take 0 q)) =
                Some (objectID m, opcode m, payload m, buf')
            ∧ msg_fd m = hd (-1) (fds ++ rights_of (take 0 q))
            ∧ fds' = tl (fds ++ rights_of (take 0 q))).
  { intros q buf fds m buf' fds' q' oid opc pl rest Hb H.
    cbn [take drop data_of rights_of]. rewrite !app_nil_r.
    destruct fds; injection H as <- <- <- <-; rewrite Hb; repeat split. }
  induction q as [|r q IH]; intros buf fds m buf' fds' q' H; cbn [readMsg_loop] in H.
  - destruct (buffered buf) as [[[[oid opc] pl] rest]|] eqn:Hb; [|discriminate].
    exists 0%nat. eapply Hnow; eassumption.
  - destruct (buffered buf) as [[[[oid opc] pl] rest]|] eqn:Hb.
    + exists 0%nat. eapply Hnow; eassumption.
    + destruct r as [data rights|e]; [|discriminate].
      destruct (len data =? 0) eqn:Hd; [discriminate|].
      destruct (IH _ _ _ _ _ _ H) as (k & Hq & Ha & Hbuf & Hfd & Hfds).
      exists (S k). cbn [take drop data_of rights_of all_data forallb].
      rewrite Hd. cbn [negb andb]. rewrite !app_assoc.
      repeat split; assumption.
Qed.

(** X11. [readMsg] conserves the byte stream: when it hands out a message
    it has taken some receives [k] of the script, each of them successful
    and non-empty, and the old buffer followed by their bytes is exactly
    the frame of the message followed by the new buffer. *)
Theorem readMsg_conserves_bytes (st st' : State) (m : message) :
  readMsg st = (Val m, st') →
  ∃ k,
    incoming st' = drop k (incoming st)
    ∧ all_data (take k (incoming st)) = true
    ∧ inBuf st ++ data_of (take k (incoming st)) =
        frame (objectID m) (opcode m) (payload m) ++ inBuf st'.
Proof.
  unfold readMsg.
  destruct (readMsg_loop _ _ _) as [r [[buf fds] q]] eqn:E.
  intros [= -> <-]. cbn [incoming inBuf].
  destruct (readMsg_loop_val _ _ _ _ _ _ _ E) as (k & Hq & Ha & Hb & _).
  exists k. split; [exact Hq|]. split; [exact Ha|].
  apply buffered_inverse in Hb. apply Hb.
Qed.

Lemma readMsg_conserves_bytes_witness :
  ∃ k,
    incoming (fresh_conn [RecvData [x2a] []]) =
      drop k (incoming (fresh_conn
        [RecvData (take 5 cancelled_event) [];
         RecvData (drop 5 cancelled_event ++ [x2a]) [];
         RecvData [x2a] []]))
    ∧ all_data (take k (incoming (fresh_conn
        [RecvData (take 5 cancelled_event) [];
         RecvData (drop 5 cancelled_event ++ [x2a]) [];
         RecvData [x2a] []]))) = true
    ∧ [] ++ data_of (take k (incoming (fresh_conn
        [RecvData (take 5 cancelled_event) [];
         RecvData (drop 5 cancelled_event ++ [x2a]) [];
         RecvData [x2a] []]))) =
        frame idDCSource 1 [] ++ [x2a].
Proof.
  apply (readMsg_conserves_bytes
           (fresh_conn
              [RecvData (take 5 cancelled_event) [];
               RecvData (drop 5 cancelled_event ++ [x2a]) [];
               RecvData [x2a] []])
           (mkState 3 [x2a] [] [RecvData [x2a] []] [] [])
           (mkMessage idDCSource 1 [] (-1))).
  vm_compute. reflexivity.
Defined.

(** X12. Descriptors are handed out oldest first, at most one per message,
    and none is lost: the descriptor of the message is the first of the
    queue extended by what the receives taken have brought ([-1] when
    that is empty), and the new queue is the rest of it. *)
Theorem readMsg_descriptors_fifo (st st' : State) (m : message) :
  readMsg st = (Val m, st') →
  ∃ k,
    incoming st' = drop k (incoming st)
    ∧ msg_fd m = hd (-1) (pendingFds st ++ rights_of (take k (incoming st)))
    ∧ pendingFds st' = tl (pendingFds st ++ rights_of (take k (incoming st))).
Proof.
  unfold readMsg.
  destruct (readMsg_loop _ _ _) as [r [[buf fds] q]] eqn:E.
  intros [= -> <-]. cbn [incoming pendingFds].
  destruct (readMsg_loop_val _ _ _ _ _ _ _ E) as (k & Hq & _ & _ & Hfd & Hfds).
  exists k. split; [exact Hq|]. split; [exact Hfd|exact Hfds].
Qed.

Lemma readMsg_descriptors_fifo_witness :
  ∃ k,
    incoming (mkState 3 [] [8; 9] [] [] []) =
      drop k (incoming (mkState 3 [] [7] [RecvData cancelled_event [8; 9]] [] []))
    ∧ 7 = hd (-1) (pendingFds (mkState 3 [] [7] [RecvData cancelled_event [8; 9]] [] [])
                    ++ rights_of (take k (incoming
                         (mkState 3 [] [7] [RecvData cancelled_event [8; 9]] [] []))))
    ∧ pendingFds (mkState 3 [] [8; 9] [] [] []) =
        tl (pendingFds (mkState 3 [] [7] [RecvData cancelled_event [8; 9]] [] [])
              ++ rights_of (take k (incoming
                   (mkState 3 [] [7] [RecvData cancelled_event [8; 9]] [] [])))).
Proof.
  apply (readMsg_descriptors_fifo
           (mkState 3 [] [7] [RecvData cancelled_event [8; 9]] [] [])
           (mkState 3 [] [8; 9] [] [] [])
           (mkMessage idDCSource 1 [] 7)).
  vm_compute. reflexivity.
Defined.

Lemma all_data_cons r q :
  all_data (r :: q) = true →
  (∃ d rights, r = RecvData d rights ∧ (len d =? 0) = false) ∧ all_data q = true.
Proof.
  cbn [all_data forallb]. intros H. apply andb_prop in H as [Hr Hq].
  split; [|exact Hq]. destruct r as [d rights|e]; [|discriminate].
  exists d, rights. split; [reflexivity|]. apply negb_true_iff. exact Hr.
Qed.

(** [readMsg] on a stream that starts with a frame, however it is cut. *)
Lemma readMsg_loop_stream oid opc args rest :
  wire_ok oid opc args →
  ∀ q buf fds,
    all_data q = true →
    buf ++ data_of q = frame oid opc args ++ rest →
    ∃ fd buf' fds' q',
      readMsg_loop q buf fds = (Val (mkMessage oid opc args fd), (buf', fds', q'))
      ∧ all_data q' = true
      ∧ buf' ++ data_of q' = rest.
Proof.
  intros Hok.
  assert (Hcomplete : ∀ (q : list recv) (buf : list byte) (fds : list Z),
            (length (frame oid opc args) ≤ length buf)%nat →
            buf ++ data_of q = frame oid opc args ++ rest →
            buffered buf =
              Some (oid, opc, args, drop (length (frame oid opc args)) buf)
            ∧ drop (length (frame oid opc args)) buf ++ data_of q = rest).
  { intros q buf fds Hlen Hs.
    assert (Hb : buf = frame oid opc args ++ drop (length (frame oid opc args)) buf).
    { rewrite <- (take_drop (length (frame oid opc args)) buf) at 1. f_equal.
      apply (f_equal (take (length (frame oid opc args)))) in Hs.
      rewrite take_app_le in Hs by exact Hlen.
      rewrite take_app_length in Hs. exact Hs. }
    split.
    - rewrite Hb at 1. apply buffered_frame, Hok.
    - rewrite Hb in Hs at 1. rewrite <- app_assoc in Hs.
      apply app_inv_head in Hs. exact Hs. }
  assert (Hpartial : ∀ buf more,
            (length buf < length (frame oid opc args))%nat →
            buf ++ more = frame oid opc args ++ rest →
            buffered buf = None).
  { intros buf more Hlen Hs.
    apply (buffered_incomplete oid opc args buf
             (drop (length buf) (frame oid opc args)) Hok).
    - rewrite <- (take_drop (length buf) (frame oid opc args)) at 2. f_equal.
      apply (f_equal (take (length buf))) in Hs.
      rewrite take_app_length in Hs.
      rewrite take_app_le in Hs by lia. exact Hs.
    - intros E. apply (f_equal length) in E. rewrite length_drop in E.
      cbn [length] in E. lia. }
  induction q as [|r q IH]; intros buf fds Ha Hs.
  - cbn [data_of] in Hs. rewrite app_nil_r in Hs.
    destruct (Hcomplete [] buf fds) as [Hb Hrest].
    { rewrite Hs, length_app. lia. }
    { cbn [data_of]. rewrite app_nil_r. exact Hs. }
    cbn [readMsg_loop]. rewrite Hb.
    destruct fds as [|fd fds]; repeat eexists; try reflexivity; exact Hrest.
  - destruct (le_lt_dec (length (frame oid opc args)) (length buf)) as [Hlen|Hlen].
    + destruct (Hcomplete (r :: q) buf fds Hlen Hs) as [Hb Hrest].
      cbn [readMsg_loop]. rewrite Hb.
      destruct fds as [|fd fds]; repeat eexists; try reflexivity; assumption.
    + cbn [readMsg_loop]. rewrite (Hpartial buf _ Hlen Hs).
      apply all_data_cons in Ha as [(d & rights & -> & Hd) Ha].
      rewrite Hd. cbn [data_of] in Hs. rewrite app_assoc in Hs.
      apply (IH (buf ++ d) (fds ++ rights) Ha Hs).
Qed.

(** X13. Messages come out in the order they were sent, however the byte
    stream is cut into receives: when the buffer followed by the bytes of
    the script starts with the frames of [msgs], the next [length msgs]
    calls of [readMsg] hand out exactly [msgs], in order, and leave what
    follows the frames. *)
Theorem readMsg_in_order (msgs : list (Z * Z * list byte)) (rest : list byte) :
  ∀ st : State,
    wire_ok_all msgs →
    all_data (incoming st) = true →
    inBuf st ++ data_of (incoming st) = frames msgs ++ rest →
    ∃ ms st',
      read_n (length msgs) st = Some (ms, st')
      ∧ map header ms = msgs
      ∧ all_data (incoming st') = true
      ∧ inBuf st' ++ data_of (incoming st') = rest.
Proof.
  induction msgs as [|[[oid opc] args] msgs IH]; intros st Hok Ha Hs.
  - exists [], st. repeat split; assumption.
  - apply Forall_cons in Hok as [Hok1 Hok]. cbn [fst snd] in Hok1.
    unfold frames in Hs. cbn [flat_map fst snd] in Hs.
    rewrite <- app_assoc in Hs.
    destruct (readMsg_loop_stream oid opc args _ Hok1 _ _ (pendingFds st) Ha Hs)
      as (fd & buf' & fds' & q' & Hr & Ha' & Hs').
    set (st1 := mkState (c_fd st) buf' fds' q' (wr_results st) (trace st)).
    destruct (IH st1 Hok Ha' Hs') as (ms & st' & Hn & Hm & Ha'' & Hs'').
    exists (mkMessage oid opc args fd :: ms), st'.
    cbn [length read_n]. unfold readMsg. rewrite Hr. fold st1. rewrite Hn.
    repeat split; try assumption.
    cbn [map]. rewrite Hm. reflexivity.
Qed.

Lemma readMsg_in_order_witness :
  ∃ ms st',
    read_n 2 (mkState 3 (take 3 (send_event "text/plain")) []
                [RecvData (drop 3 (send_event "text/plain") ++ take 2 cancelled_event) [];
                 RecvData (drop 2 cancelled_event ++ [x2a]) []] [] [])
      = Some (ms, st')
    ∧ map header ms =
        [(idDCSource, 0, encodeString "text/plain"); (idDCSource, 1, [])]
    ∧ all_data (incoming st') = true
    ∧ inBuf st' ++ data_of (incoming st') = [x2a].
Proof.
  apply (readMsg_in_order
           [(idDCSource, 0, encodeString "text/plain"); (idDCSource, 1, [])]
           [x2a]
           (mkState 3 (take 3 (send_event "text/plain")) []
              [RecvData (drop 3 (send_event "text/plain") ++ take 2 cancelled_event) [];
               RecvData (drop 2 cancelled_event ++ [x2a]) []] [] [])).
  - repeat constructor; vm_compute; congruence.
  - reflexivity.
  - vm_compute. reflexivity.
Defined.

(** X14. A header whose size field is below 8 is never handed out as a
    message and never skipped: [readMsg] only fails or waits, and the
    buffer still starts with that header afterwards, so no later call
    hands out a message either. *)
Theorem readMsg_bad_header (st : State) :
  bad_header (inBuf st) →
  (∀ m, (readMsg st).1 ≠ Val m) ∧ bad_header (inBuf (readMsg st).2).
Proof.
  assert (Hgrow : ∀ buf d, bad_header buf → bad_header (buf ++ d)).
  { intros buf d [H8 Hsz]. split.
    - rewrite len_app. pose proof (len_nonneg d). lia.
    - replace (slice 4 8 (buf ++ d)) with (slice 4 8 buf); [exact Hsz|].
      unfold slice, len in *.
      rewrite drop_app_le by lia.
      rewrite take_app_le; [reflexivity|]. rewrite length_drop. lia. }
  assert (Hnone : ∀ buf, bad_header buf → buffered buf = None).
  { intros buf [H8 Hsz]. unfold buffered.
    destruct (8 <=? len buf); [|reflexivity].
    destruct (Z.leb_spec 8 (Uint32 (slice 4 8 buf) ≫ 16)); [lia|reflexivity]. }
  assert (Hloop : ∀ q buf fds, bad_header buf →
            (∀ m, (readMsg_loop q buf fds).1 ≠ Val m)
            ∧ bad_header (readMsg_loop q buf fds).2.1.1).
  { induction q as [|r q IH]; intros buf fds Hbad; cbn [readMsg_loop];
      rewrite (Hnone buf Hbad).
    - split; [discriminate|exact Hbad].
    - destruct r as [d rights|e]; [|split; [discriminate|exact Hbad]].
      destruct (len d =? 0); [split; [discriminate|exact Hbad]|].
      apply IH, Hgrow, Hbad. }
  intros Hbad. specialize (Hloop (incoming st) (inBuf st) (pendingFds st) Hbad).
  unfold readMsg.
  destruct (readMsg_loop _ _ _) as [r [[buf fds] q]]. exact Hloop.
Qed.

Lemma readMsg_bad_header_witness :
  (∀ m, (readMsg (mkState 3 [x06; x00; x00; x00; x01; x00; x04; x00] []
                    [RecvData cancelled_event []] [] [])).1 ≠ Val m)
  ∧ bad_header
      (inBuf (readMsg (mkState 3 [x06; x00; x00; x00; x01; x00; x04; x00] []
                         [RecvData cancelled_event []] [] [])).2).
Proof.
  apply (readMsg_bad_header
           (mkState 3 [x06; x00; x00; x00; x01; x00; x04; x00] []
              [RecvData cancelled_event []] [] [])).
  split; vm_compute; [discriminate|reflexivity].
Defined.

(** ** [Serve] *)

(** X15. When [Connect] fails, the descriptor that [Socket] returned is
    closed again and [Serve] returns the error wrapped with the socket
    path: the runtime directory joined with the display name, which is
    ["wayland-0"] when [WAYLAND_DISPLAY] is empty. Nothing is written. *)
Theorem Serve_connect_failure (env : Env) (fuel : nat)
    (formats : gmap string (list byte)) (fd : Z) (e : error) :
  let sockPath :=
    filepath_Join env (XDG_RUNTIME_DIR env)
      (if String.eqb (WAYLAND_DISPLAY env) EmptyString then "wayland-0"%string
       else WAYLAND_DISPLAY env) in
  String.eqb (XDG_RUNTIME_DIR env) EmptyString = false →
  socket_result env = inl fd →
  connect_result env sockPath = Some e →
  Serve env fuel formats = (Fail (ErrConnect sockPath e), [SysClose fd]).
Proof.
  intros sockPath Hrt Hsock Hconn. unfold Serve, newConn.
  rewrite Hrt, Hsock. fold sockPath. rewrite Hconn. reflexivity.
Qed.

Lemma Serve_connect_failure_witness :
  Serve (mkEnv "/run/user/1000" EmptyString
           (λ dir name, (dir ++ "/" ++ name)%string) (inl 3)
           (λ path, if String.eqb path "/run/user/1000/wayland-0"
                    then Some (Errno 111) else None)
           [] [] (λ _, [])) 20 offer_table =
    (Fail (ErrConnect "/run/user/1000/wayland-0" (Errno 111)), [SysClose 3]).
Proof.
  apply (Serve_connect_failure
           (mkEnv "/run/user/1000" EmptyString
              (λ dir name, (dir ++ "/" ++ name)%string) (inl 3)
              (λ path, if String.eqb path "/run/user/1000/wayland-0"
                       then Some (Errno 111) else None)
              [] [] (λ _, [])) 20 offer_table 3 (Errno 111));
    reflexivity.
Defined.

Lemma keeps_fd_session env fuel formats : keeps_fd (session env fuel formats).
Proof.
  unfold session, eventLoop. apply keeps_fd_bind; [apply keeps_fd_handshake|].
  intros _. apply keeps_fd_loop. intros u. apply keeps_fd_serveRequests.
Qed.

(** X16. Whenever [Serve] has connected and comes back, with [nil], with
    an error or by a panic, its last system call is the [Close] of the
    socket. *)
Theorem Serve_closes_socket (env : Env) (fuel : nat)
    (formats : gmap string (list byte)) (st : State) :
  connected env = Some st →
  (Serve env fuel formats).1 ≠ Block →
  (Serve env fuel formats).1 ≠ Timeout →
  last (Serve env fuel formats).2 = Some (SysClose (c_fd st)).
Proof.
  intros Hc. rewrite (Serve_connected _ _ _ _ Hc). unfold deferred_close.
  pose proof (keeps_fd_session env fuel formats st) as Hfd.
  destruct (session env fuel formats st) as [[[]|e| | |] st1];
    cbn [fst snd] in *; intros Hb Ht; try congruence;
    unfold close, sys_close, log; cbn [fst snd trace];
    rewrite last_snoc, Hfd; reflexivity.
Qed.

Lemma Serve_closes_socket_witness :
  last (Serve (peer_env plain_script) 20 offer_table).2 = Some (SysClose 3).
Proof.
  apply (Serve_closes_socket (peer_env plain_script) 20 offer_table
           (fresh_conn plain_script)).
  - reflexivity.
  - vm_compute. discriminate.
  - vm_compute. discriminate.
Defined.

Lemma readMsg_no_panic st : (readMsg st).1 ≠ Panic.
Proof.
  assert (H : ∀ q buf fds, (readMsg_loop q buf fds).1 ≠ Panic).
  { induction q as [|r q IH]; intros buf fds; cbn [readMsg_loop];
      destruct (buffered buf) as [[[[oid opc] pl] rest]|];
      try (destruct fds; discriminate); try discriminate.
    destruct r as [d rights|e]; [|discriminate].
    destruct (len d =? 0); [discriminate|apply IH]. }
  unfold readMsg. specialize (H (incoming st) (inBuf st) (pendingFds st)).
  destruct (readMsg_loop _ _ _) as [r [[buf fds] q]]. exact H.
Qed.

Lemma serveRequests_result formats u st :
  (∀ e, (serveRequests formats u st).1 ≠ Fail e)
  ∧ (serveRequests formats u st).1 ≠ Panic.
Proof.
  destruct u. pose proof (readMsg_no_panic st) as Hp.
  destruct (readMsg st) as [[m|e| | |] st1] eqn:E; cbn [fst] in Hp.
  - rewrite (serveRequests_message formats st m st1 E).
    split; [intros e|]; destruct (is_cancelled m); discriminate.
  - rewrite (serveRequests_error formats st e st1 E). split; discriminate.
  - unfold serveRequests, mbind, M_bind, attempt. rewrite E. split; discriminate.
  - congruence.
  - unfold serveRequests, mbind, M_bind, attempt. rewrite E. split; discriminate.
Qed.

Lemma eventLoop_result formats : ∀ fuel st,
  (∀ e, (eventLoop fuel formats st).1 ≠ Fail e)
  ∧ (eventLoop fuel formats st).1 ≠ Panic.
Proof.
  unfold eventLoop. induction fuel as [|fuel IH]; intros st.
  - split; discriminate.
  - cbn [loop]. unfold mbind, M_bind.
    destruct (serveRequests_result formats () st) as [Hf Hp].
    destruct (serveRequests formats () st) as [[[[]|[]]|e| | |] st1];
      cbn [fst] in *; try (split; discriminate).
    + apply IH.
    + exfalso. apply (Hf e). reflexivity.
    + congruence.
Qed.

(** X17. Once the event loop is entered [Serve] can no longer fail: it
    returns [nil], or it is still waiting for the compositor; it returns
    no error and does not panic, whatever arrives. *)
Theorem Serve_serving_no_error (env : Env) (fuel : nat)
    (formats : gmap string (list byte)) (st : State) :
  serving env fuel formats = Some st →
  (script_bytes (peer_script env) < fuel)%nat →
  (Serve env fuel formats).1 = Val () ∨ (Serve env fuel formats).1 = Block.
Proof.
  intros Hs Hfuel.
  pose proof (Serve_fuel_enough env fuel formats Hfuel) as Ht.
  rewrite (Serve_serving _ _ _ _ Hs) in *. unfold deferred_close in *.
  destruct (eventLoop_result formats fuel st) as [Hf Hp].
  destruct (eventLoop fuel formats st) as [[[]|e| | |] st1]; cbn [fst] in *.
  - left. reflexivity.
  - exfalso. apply (Hf e). reflexivity.
  - right. reflexivity.
  - congruence.
  - congruence.
Qed.

Lemma Serve_serving_no_error_witness :
  (Serve (peer_env (handshake_script ++ [other_event; RecvErr (Errno 104)]))
     200 offer_table).1 = Val ()
  ∨ (Serve (peer_env (handshake_script ++ [other_event; RecvErr (Errno 104)]))
       200 offer_table).1 = Block.
Proof.
  apply (Serve_serving_no_error
           (peer_env (handshake_script ++ [other_event; RecvErr (Errno 104)]))
           200 offer_table
           (default (fresh_conn [])
              (serving (peer_env (handshake_script ++ [other_event; RecvErr (Errno 104)]))
                 200 offer_table))).
  - vm_compute. reflexivity.
  - vm_compute. lia.
Defined.

Lemma bootstrap_transport_error fuel st st1 st2 ms e :
  read_n (length ms) st = Some (ms, st1) →
  forallb (λ m, negb (is_done idCallback1 m)) ms = true →
  readMsg st1 = (Fail e, st2) →
  next_writes_ok 2 st = true →
  (length ms < fuel)%nat →
  bootstrap fuel st =
    (Fail e,
     with_io st2 (tl (tl (wr_results st)))
       (trace st ++ [SysWrite (c_fd st) get_registry_request;
                     SysWrite (c_fd st) (sync_request idCallback1)]
                 ++ closes ms)).
Proof.
  intros Hn Hnd Hr Hw Hfuel.
  unfold bootstrap.
  destruct (sendMsg_ok idDisplay 1 (encodeUint32 idRegistry) 1 st
              ltac:(solve_wire_ok) Hw) as [E1 Hw1].
  unfold mbind at 1, M_bind at 1. rewrite E1.
  destruct (sendMsg_ok idDisplay 0 (encodeUint32 idCallback1) 0 _
              ltac:(solve_wire_ok) Hw1) as [E2 _].
  unfold mbind at 1, M_bind at 1. rewrite E2.
  cbn [c_fd wr_results trace with_io].
  set (wr := tl (tl (wr_results st))).
  set (tr := (trace st ++ _) ++ _).
  replace fuel with (length ms + S (fuel - length ms - 1))%nat by lia.
  unfold mbind at 1, M_bind at 1.
  rewrite (collectGlobals_messages ms _ no_globals _ _
             (read_n_with_io _ _ wr tr _ _ Hn) Hnd).
  cbn [loop]. unfold mbind at 1, M_bind at 1.
  assert (Hr' : readMsg (logged (with_io st1 wr tr) (closes ms)) =
                (Fail e, logged (with_io st2 wr tr) (closes ms))).
  { rewrite readMsg_logged, readMsg_with_io, Hr. reflexivity. }
  unfold collectGlobals. unfold mbind at 1, M_bind at 1. rewrite Hr'.
  f_equal. unfold logged, with_io, tr, get_registry_request, sync_request.
  cbn [c_fd inBuf pendingFds incoming wr_results trace].
  rewrite <- !app_assoc. reflexivity.
Qed.

(** X18. Before the event loop a transport error is an error: when the
    connection fails or is closed while the bootstrap waits for the [done]
    of the first sync, [Serve] returns that error; it has closed the
    descriptors it was sent and closes the socket. *)
Theorem Serve_bootstrap_transport_error (env : Env) (fuel : nat)
    (formats : gmap string (list byte)) (st st1 st2 : State)
    (ms : list message) (e : error) :
  connected env = Some st →
  read_n (length ms) st = Some (ms, st1) →
  forallb (λ m, negb (is_done idCallback1 m)) ms = true →
  readMsg st1 = (Fail e, st2) →
  next_writes_ok 2 st = true →
  (length ms < fuel)%nat →
  Serve env fuel formats =
    (Fail e,
     trace st ++ [SysWrite (c_fd st) get_registry_request;
                  SysWrite (c_fd st) (sync_request idCallback1)]
       ++ closes ms ++ [SysClose (c_fd st)]).
Proof.
  intros Hc Hn Hnd Hr Hw Hfuel.
  rewrite (Serve_connected _ _ _ _ Hc).
  assert (E : session env fuel formats st =
              (Fail e,
               with_io st2 (tl (tl (wr_results st)))
                 (trace st ++ [SysWrite (c_fd st) get_registry_request;
                               SysWrite (c_fd st) (sync_request idCallback1)]
                    ++ closes ms))).
  { unfold session, handshake. unfold mbind, M_bind.
    rewrite (bootstrap_transport_error fuel st st1 st2 ms e Hn Hnd Hr Hw Hfuel).
    reflexivity. }
  unfold deferred_close. rewrite E.
  cbn [fst snd]. unfold close, sys_close, log, with_io. cbn [fst snd trace c_fd].
  destruct (read_n_trace _ _ _ _ Hn) as [_ Hf].
  pose proof (readMsg_c_fd st1) as Hf2. rewrite Hr in Hf2. cbn [snd] in Hf2.
  rewrite Hf2, Hf, <- !app_assoc. reflexivity.
Qed.

Lemma Serve_bootstrap_transport_error_witness :
  Serve (peer_env [RecvData (global_event 7 "wl_seat" 8) [5]; RecvData [] []])
        20 offer_table =
    (Fail (Errorf "wayland: connection closed"),
     [SysWrite 3 get_registry_request; SysWrite 3 (sync_request idCallback1);
      SysClose 5; SysClose 3]).
Proof.
  apply (Serve_bootstrap_transport_error
           (peer_env [RecvData (global_event 7 "wl_seat" 8) [5]; RecvData [] []])
           20 offer_table
           (fresh_conn [RecvData (global_event 7 "wl_seat" 8) [5]; RecvData [] []])
           (fresh_conn [RecvData [] []])
           (fresh_conn [])
           [mkMessage idRegistry 0
              (encodeUint32 7 ++ encodeString "wl_seat" ++ encodeUint32 8) 5]
           (Errorf "wayland: connection closed")).
  - reflexivity.
  - vm_compute. reflexivity.
  - reflexivity.
  - vm_compute. reflexivity.
  - reflexivity.
  - vm_compute. lia.
Defined.

Lemma awaitSecondSync_message u st m st1 :
  readMsg st = (Val m, st1) →
  awaitSecondSync u st =
    (Val (if is_done idCallback2 m then inr () else inl ()),
     logged st1 (closes [m])).
Proof.
  intros H. unfold awaitSecondSync. unfold mbind at 1, M_bind at 1. rewrite H.
  unfold mbind, M_bind, close_if_fd, closes, is_done. cbn [flat_map].
  destruct (0 <=? msg_fd m); munfold;
    destruct ((objectID m =? idCallback2) && (opcode m =? 0));
    rewrite ?app_nil_r, ?logged_nil; reflexivity.
Qed.

Lemma awaitSecondSync_messages : ∀ ms k st st1,
  read_n (length ms) st = Some (ms, st1) →
  forallb (λ m, negb (is_done idCallback2 m)) ms = true →
  loop (length ms + k) awaitSecondSync () st =
    loop k awaitSecondSync () (logged st1 (closes ms)).
Proof.
  induction ms as [|m ms IH]; intros k st st1 Hn Hnd.
  - simpl in Hn. injection Hn as <-. simpl. rewrite logged_nil. reflexivity.
  - cbn [length read_n] in Hn.
    destruct (readMsg st) as [[m0| | | |] st0] eqn:E0; try discriminate.
    destruct (read_n (length ms) st0) as [[ms0 st2]|] eqn:E1; [|discriminate].
    injection Hn as -> -> ->.
    cbn [forallb] in Hnd. apply andb_prop in Hnd as [Hm Hnd].
    apply negb_true_iff in Hm.
    cbn [length Nat.add loop]. unfold mbind at 1, M_bind at 1.
    rewrite (awaitSecondSync_message _ _ _ _ E0), Hm.
    rewrite (IH k _ _ (read_n_logged _ _ (closes [m]) _ _ E1) Hnd).
    rewrite logged_logged.
    change (m :: ms) with ([m] ++ ms). rewrite closes_app. reflexivity.
Qed.

(** X19. While [Serve] waits for the [done] of the second sync it discards
    whatever else arrives, events of the data source included: each such
    message only has its descriptor closed. A paste request that arrives
    in that window is never answered. *)
Theorem awaitSecondSync_discards (fuel : nat) (st st1 st2 : State)
    (ms : list message) (d : message) :
  read_n (length ms) st = Some (ms, st1) →
  forallb (λ m, negb (is_done idCallback2 m)) ms = true →
  readMsg st1 = (Val d, st2) →
  is_done idCallback2 d = true →
  (length ms < fuel)%nat →
  loop fuel awaitSecondSync () st = (Val (), logged st2 (closes (ms ++ [d]))).
Proof.
  intros Hn Hnd Hr Hd Hfuel.
  replace fuel with (length ms + S (fuel - length ms - 1))%nat by lia.
  rewrite (awaitSecondSync_messages ms _ st st1 Hn Hnd).
  cbn [loop]. unfold mbind, M_bind.
  assert (Hr' : readMsg (logged st1 (closes ms)) = (Val d, logged st2 (closes ms)))
    by (rewrite readMsg_logged, Hr; reflexivity).
  rewrite (awaitSecondSync_message _ _ _ _ Hr'), Hd.
  unfold mret, M_ret. rewrite logged_logged, <- closes_app. reflexivity.
Qed.

Lemma awaitSecondSync_discards_witness :
  loop 20 awaitSecondSync ()
    (fresh_conn [RecvData (send_event "text/plain") [12];
                 RecvData (done_event idCallback2) []]) =
    (Val (), logged (fresh_conn []) [SysClose 12]).
Proof.
  apply (awaitSecondSync_discards 20
           (fresh_conn [RecvData (send_event "text/plain") [12];
                        RecvData (done_event idCallback2) []])
           (fresh_conn [RecvData (done_event idCallback2) []])
           (fresh_conn [])
           [mkMessage idDCSource 0 (encodeString "text/plain") 12]
           (done_message idCallback2)).
  - vm_compute. reflexivity.
  - reflexivity.
  - vm_compute. reflexivity.
  - reflexivity.
  - vm_compute. lia.
Defined.

(** X20. In the event loop a message for any object other than the data
    source is skipped: its descriptor, if it has one, is closed, nothing
    is written, and the loop goes on. *)
Theorem serve_other_object (formats : gmap string (list byte))
    (st st1 : State) (m : message) :
  readMsg st = (Val m, st1) →
  objectID m ≠ idDCSource →
  serveRequests formats () st = (Val (inl ()), logged st1 (closes [m])).
Proof.
  intros Hr Ho. rewrite (serveRequests_message formats st m st1 Hr).
  unfold is_cancelled, answer.
  destruct (Z.eqb_spec (objectID m) idDCSource); [contradiction|].
  reflexivity.
Qed.

Lemma serve_other_object_witness :
  serveRequests offer_table ()
    (fresh_conn [RecvData (frame idDCDevice 0 (encodeUint32 9)) [12]]) =
    (Val (inl ()), logged (fresh_conn []) [SysClose 12]).
Proof.
  apply (serve_other_object offer_table
           (fresh_conn [RecvData (frame idDCDevice 0 (encodeUint32 9)) [12]])
           (fresh_conn [])
           (mkMessage idDCDevice 0 (encodeUint32 9) 12)).
  - vm_compute. reflexivity.
  - discriminate.
Defined.






Lemma rights_of_app q1 q2 : rights_of (q1 ++ q2) = rights_of q1 ++ rights_of q2.
Proof.
  induction q1 as [|[d rights|e] q1 IH]; cbn [rights_of app]; [reflexivity| |exact IH].
  rewrite IH, app_assoc. reflexivity.
Qed.

(** The descriptor of a message, and every descriptor still held after
    it, was held or on its way before. *)
Lemma readMsg_received st m st1 :
  readMsg st = (Val m, st1) →
  (0 <= msg_fd m → In (msg_fd m) (received st))
  ∧ ∀ fd, In fd (received st1) → In fd (received st).
Proof.
  unfold readMsg.
  destruct (readMsg_loop _ _ _) as [r [[buf fds] q]] eqn:E.
  intros [= -> <-]. unfold received. cbn [incoming pendingFds].
  destruct (readMsg_loop_val _ _ _ _ _ _ _ E) as (k & -> & _ & _ & Hfd & ->).
  assert (Hr : rights_of (incoming st) =
                 rights_of (take k (incoming st)) ++ rights_of (drop k (incoming st)))
    by (rewrite <- rights_of_app, take_drop; reflexivity).
  rewrite Hr, app_assoc.
  destruct (pendingFds st ++ rights_of (take k (incoming st))) as [|fd0 l].
  - split; [cbn [hd] in Hfd; lia|]. intros fd H. exact H.
  - cbn [hd tl] in *. split.
    + intros _. rewrite Hfd. left. reflexivity.
    + intros fd H. right. exact H.
Qed.

(** X22. Whatever arrives, the event loop touches only descriptors that
    came with the messages: every call it makes is a [Close] of a
    descriptor it held or received, or a [Write] to such a descriptor of
    the bytes the table holds for some MIME type. It writes nothing to
    the socket as such and nothing that is not in the table. *)
Theorem eventLoop_confined (formats : gmap string (list byte)) :
  ∀ (fuel : nat) (st : State),
  ∃ tail,
    trace (eventLoop fuel formats st).2 = trace st ++ tail
    ∧ Forall (λ ev, match ev with
                    | SysClose fd => 0 <= fd ∧ In fd (received st)
                    | SysWrite fd data =>
                        0 <= fd ∧ In fd (received st)
                        ∧ ∃ mime, formats !! mime = Some data
                    end) tail.
Proof.
  unfold eventLoop.
  induction fuel as [|fuel IH]; intros st.
  - exists []. cbn. rewrite app_nil_r. split; [reflexivity|constructor].
  - cbn [loop]. unfold mbind at 1, M_bind at 1.
    pose proof (readMsg_trace st) as Ht.
    destruct (readMsg st) as [r st1] eqn:E. cbn [snd] in Ht.
    destruct r as [m|e| | |].
    + rewrite (serveRequests_message formats st m st1 E).
      destruct (readMsg_received st m st1 E) as [Hfd Hsub].
      assert (Ha : Forall (λ ev, match ev with
                    | SysClose fd => 0 <= fd ∧ In fd (received st)
                    | SysWrite fd data =>
                        0 <= fd ∧ In fd (received st)
                        ∧ ∃ mime, formats !! mime = Some data
                    end) (answer formats m)).
      { unfold answer, closes. cbn [flat_map].
        destruct (negb (objectID m =? idDCSource)).
        - destruct (Z.leb_spec 0 (msg_fd m)); repeat constructor; auto.
        - destruct (opcode m =? 0); cbn [andb]; [|constructor].
          destruct (Z.leb_spec 0 (msg_fd m)); [|constructor].
          destruct (formats !! (decodeString (payload m)).1.1) eqn:El;
            repeat constructor; auto.
          eexists. exact El. }
      destruct (is_cancelled m).
      * exists (answer formats m). cbn. rewrite Ht. split; [reflexivity|exact Ha].
      * destruct (IH (logged st1 (answer formats m))) as (tail & Htr & Hall).
        exists (answer formats m ++ tail). rewrite Htr. cbn [trace logged].
        rewrite Ht, <- app_assoc. split; [reflexivity|].
        apply Forall_app. split; [exact Ha|].
        eapply Forall_impl; [exact Hall|].
        intros [fd data|fd]; cbn beta iota; unfold received at 1 2;
          cbn [logged pendingFds incoming]; fold (received st1).
        -- intros (H0 & Hin & Hm). auto.
        -- intros (H0 & Hin). auto.
    + rewrite (serveRequests_error formats st e st1 E).
      exists []. cbn. rewrite Ht, app_nil_r. split; [reflexivity|constructor].
    + exists []. unfold serveRequests. munfold. rewrite E. cbn.
      rewrite Ht, app_nil_r. split; [reflexivity|constructor].
    + exists []. unfold serveRequests. munfold. rewrite E. cbn.
      rewrite Ht, app_nil_r. split; [reflexivity|constructor].
    + exists []. unfold serveRequests. munfold. rewrite E. cbn.
      rewrite Ht, app_nil_r. split; [reflexivity|constructor].
Qed.

(** X23. [WriteMultiFormat] makes at most one call outside the package and
    never reports success without having made one. A [WriteAll] carries
    the plain text, never the HTML, and happens only when
    [WAYLAND_DISPLAY] is unset or empty; a started process is this binary
    with the single argument [__clipboard-serve], in a session of its own,
    and happens only when [WAYLAND_DISPLAY] is not empty. *)
Theorem WriteMultiFormat_calls (h : Clipboard.Host) (html plain : string) :
  let r := Clipboard.WriteMultiFormat h html plain in
  (length r.2 <= 1)%nat
  ∧ (r.1 = None → r.2 ≠ [])
  ∧ (∀ text, In (Clipboard.CallWriteAll text) r.2 →
       text = plain
       ∧ Clipboard.Getenv (Clipboard.WAYLAND_DISPLAY h) = EmptyString
       ∧ r.1 = Clipboard.WriteAll_result h plain)
  ∧ (∀ path args stdin setsid,
       In (Clipboard.CallStart path args stdin setsid) r.2 →
       path = Clipboard.Args0 h ∧ args = ["__clipboard-serve"%string]
       ∧ setsid = true
       ∧ Clipboard.json_Marshal h html plain = inl stdin
       ∧ Clipboard.Getenv (Clipboard.WAYLAND_DISPLAY h) ≠ EmptyString
       ∧ r.1 = Clipboard.Start_result h).
Proof.
  unfold Clipboard.WriteMultiFormat, Clipboard.spawnClipboardServer.
  destruct (String.eqb_spec (Clipboard.Getenv (Clipboard.WAYLAND_DISPLAY h))
              EmptyString) as [E|E];
    [|destruct (Clipboard.json_Marshal h html plain) as [payload|err]];
    cbn; repeat split; intros;
    repeat match goal with
    | H : _ ∨ _ |- _ => destruct H
    | H : False |- _ => destruct H
    | H : Clipboard.CallWriteAll _ = _ |- _ =>
        first [discriminate H | injection H as ?; subst]
    | H : Clipboard.CallStart _ _ _ _ = _ |- _ =>
        first [discriminate H | injection H as ? ? ? ?; subst]
    end; try lia; try congruence.
Qed.

(** X24. A paste request answered from the table of [ServeClipboard]: a
    [send] event on the data source that names a MIME type and carries a
    descriptor gets the HTML for [text/html], the plain text for each of
    the four text types, and nothing for any other type; in every case the
    descriptor is closed afterwards and the loop goes on. Bytes after the
    string in the event are ignored. *)
Theorem ServeClipboard_send (html plain mime : string) (rest : list byte)
    (st st1 : State) (m : message) :
  readMsg st = (Val m, st1) →
  objectID m = idDCSource →
  opcode m = 0 →
  payload m = encodeString mime ++ rest →
  len (list_byte_of_string mime) + 1 < 2 ^ 32 →
  0 <= msg_fd m →
  serveRequests (Clipboard.ServeClipboard_formats html plain) () st =
    (Val (inl ()),
     logged st1
       ((if String.eqb mime "text/html" then
           [SysWrite (msg_fd m) (list_byte_of_string html)]
         else if existsb (String.eqb mime) Clipboard.plain_types then
           [SysWrite (msg_fd m) (list_byte_of_string plain)]
         else [])
        ++ [SysClose (msg_fd m)])).
Proof.
  intros Hr Ho Hop Hp Hlen Hfd.
  rewrite (serveRequests_message _ st m st1 Hr).
  unfold is_cancelled, answer. rewrite Ho, Hop, Hp.
  rewrite (decodeString_encodeString_app mime rest Hlen).
  cbn [Z.eqb Pos.eqb negb andb fst idDCSource].
  replace (0 <=? msg_fd m) with true by (symmetry; lia).
  unfold Clipboard.ServeClipboard_formats, Clipboard.plain_types.
  cbn [existsb].
  repeat match goal with
  | |- context [String.eqb mime ?k] =>
      destruct (String.eqb_spec mime k) as [->|?]
  end; cbn [orb app]; try reflexivity.
  rewrite !lookup_insert_ne, lookup_singleton_ne by congruence.
  reflexivity.
Qed.

Lemma ServeClipboard_send_witness :
  serveRequests (Clipboard.ServeClipboard_formats "<b>hi</b>" "hi") ()
    (fresh_conn [RecvData (send_event "UTF8_STRING") [9]]) =
    (Val (inl ()),
     logged (fresh_conn [])
       ((if String.eqb "UTF8_STRING" "text/html" then
           [SysWrite (msg_fd (mkMessage idDCSource 0 (encodeString "UTF8_STRING") 9))
              (list_byte_of_string "<b>hi</b>")]
         else if existsb (String.eqb "UTF8_STRING") Clipboard.plain_types then
           [SysWrite (msg_fd (mkMessage idDCSource 0 (encodeString "UTF8_STRING") 9))
              (list_byte_of_string "hi")]
         else [])
        ++ [SysClose (msg_fd (mkMessage idDCSource 0 (encodeString "UTF8_STRING") 9))])).
Proof.
  apply (ServeClipboard_send "<b>hi</b>" "hi" "UTF8_STRING" []
           (fresh_conn [RecvData (send_event "UTF8_STRING") [9]])
           (fresh_conn [])
           (mkMessage idDCSource 0 (encodeString "UTF8_STRING") 9)).
  - vm_compute. reflexivity.
  - reflexivity.
  - reflexivity.
  - vm_compute. reflexivity.
  - vm_compute. reflexivity.
  - vm_compute. discriminate.
Defined.
